(** * Tabular Q-learning on FrozenLake: a shallow embedding of
      [week_1/understanding_frozenlake.ipynb]

    The notebook defines three functions, [greedy_epsilon], [run_env] and
    [evaluation], over a NumPy array [qtable] of IEEE 754 binary64 numbers.
    They are embedded here as executable Rocq functions:

    - numbers are [spec_float] values with the binary64 operations of the
      standard library's [SpecFloat] (round to nearest, ties to even);
    - the array is a list of rows, indexed with NumPy's rules (negative
      indices count from the end, anything else out of range raises
      [IndexError]);
    - the environment, the random generator and the console are explicit
      state, threaded through a state-and-exception monad; the [while] loops
      of the notebook take a fuel argument. *)

From Stdlib Require Import ZArith Bool Lia String.
From Stdlib Require Import SpecFloat.
From stdpp Require Import base option list.

Local Open Scope Z_scope.

(** ** Binary64 numbers *)

Module F64.

Definition prec : Z := 53.
Definition emax : Z := 1024.

Definition float : Type := spec_float.

Definition add : float -> float -> float := SFadd prec emax.
Definition sub : float -> float -> float := SFsub prec emax.
Definition mul : float -> float -> float := SFmul prec emax.
Definition div : float -> float -> float := SFdiv prec emax.
Definition abs : float -> float := SFabs.
Definition eqb : float -> float -> bool := SFeqb.
Definition ltb : float -> float -> bool := SFltb.
Definition leb : float -> float -> bool := SFleb.

Definition is_nan (x : float) : bool :=
  match x with S754_nan => true | _ => false end.

(** Neither an infinity nor a NaN. *)
Definition is_finite (x : float) : bool :=
  match x with S754_zero _ | S754_finite _ _ _ => true | _ => false end.

Definition valid : float -> bool := valid_binary prec emax.

(** Conversion of a Python [int] (here a natural number) to a float. *)
Definition of_nat (n : nat) : float :=
  binary_normalize prec emax (Z.of_nat n) 0 false.

(** The literals of the notebook and of the tests, as the nearest
    binary64 numbers. *)
Definition zero : float := S754_zero false.
Definition one : float := S754_finite false 4503599627370496 (-52).
Definition half : float := S754_finite false 4503599627370496 (-53).
Definition two : float := S754_finite false 4503599627370496 (-51).
Definition three : float := S754_finite false 6755399441055744 (-51).
Definition ten : float := S754_finite false 5629499534213120 (-49).
Definition lit_0_1 : float := S754_finite false 7205759403792794 (-56).
Definition lit_0_9 : float := S754_finite false 8106479329266893 (-53).
Definition lit_0_99 : float := S754_finite false 8917127262193582 (-53).
Definition lit_1e_3 : float := S754_finite false 4611686018427388 (-62).

(** [nearest x p q]: the positive finite number [x = m * 2^e] (with
    [e <= 0]) is within half a unit in the last place of the rational
    [p / q], which is how Python reads a decimal literal. *)
Definition nearest (x : float) (p q : Z) : bool :=
  match x with
  | S754_finite false m e =>
      valid x && (e <=? 0) &&
      (Z.abs (2 * Z.pos m * q - 2 * p * 2 ^ (- e)) <=? q)
  | _ => false
  end.

(** A number that is not a NaN is placed on a lexicographic scale:
    the class (infinities, negative, zero, positive), then exponent and
    mantissa. *)
Definition key (x : float) : Z * Z * Z :=
  match x with
  | S754_nan => (0, 0, 0)
  | S754_zero _ => (0, 0, 0)
  | S754_infinity true => (-2, 0, 0)
  | S754_infinity false => (2, 0, 0)
  | S754_finite true m e => (-1, - e, - Z.pos m)
  | S754_finite false m e => (1, e, Z.pos m)
  end.

Definition lex_le (a b : Z * Z * Z) : Prop :=
  let '(a1, a2, a3) := a in
  let '(b1, b2, b3) := b in
  a1 < b1 \/ (a1 = b1 /\ (a2 < b2 \/ (a2 = b2 /\ a3 <= b3))).

End F64.

Declare Scope f64_scope.
Delimit Scope f64_scope with f64.
Bind Scope f64_scope with F64.float.
Infix "+" := F64.add : f64_scope.
Infix "-" := F64.sub : f64_scope.
Infix "*" := F64.mul : f64_scope.
Infix "/" := F64.div : f64_scope.
Infix "==" := F64.eqb (at level 70, no associativity) : f64_scope.
Infix "<?" := F64.ltb : f64_scope.
Infix "<=?" := F64.leb : f64_scope.

Abbreviation float := F64.float.

(** ** Exceptions and results *)

Inductive exn : Type :=
| IndexError
| ValueError
| ZeroDivisionError.

(** What running a piece of the notebook gives: a value, an uncaught
    exception, or a [while] loop that is still running when the fuel is
    spent. *)
Inductive outcome (A : Type) : Type :=
| Ok (a : A)
| Raise (e : exn)
| OutOfFuel.
Arguments Ok {A} a.
Arguments Raise {A} e.
Arguments OutOfFuel {A}.

Definition obind {A B : Type} (o : outcome A) (k : A -> outcome B) : outcome B :=
  match o with
  | Ok a => k a
  | Raise e => Raise e
  | OutOfFuel => OutOfFuel
  end.

Definition is_Ok {A : Type} (o : outcome A) : bool :=
  match o with Ok _ => true | _ => false end.

(** ** The NumPy array *)

(** A two-dimensional array, as the list of its rows. [np.zeros((S, A))]
    gives [S] rows of [A] zeros. *)
Abbreviation ndarray := (list (list float)).

Definition np_zeros (S A : nat) : ndarray := replicate S (replicate A F64.zero).

(** All rows have [A] columns. *)
Definition has_shape (S A : nat) (q : ndarray) : Prop :=
  length q = S /\ Forall (fun row => length row = A) q.

(** NumPy's treatment of an integer index [i] along an axis of size [n]:
    [0 <= i < n] is taken as it is, [-n <= i < 0] counts from the end, and
    everything else is refused. *)
Definition np_index (n : nat) (i : Z) : option nat :=
  if (0 <=? i) && (i <? Z.of_nat n) then Some (Z.to_nat i)
  else if (- Z.of_nat n <=? i) && (i <? 0) then Some (Z.to_nat (i + Z.of_nat n))
  else None.

(** [q[i, :]] *)
Definition getrow (q : ndarray) (i : Z) : outcome (list float) :=
  match np_index (length q) i with
  | Some k => match q !! k with Some row => Ok row | None => Raise IndexError end
  | None => Raise IndexError
  end.

(** [q[i, j]] *)
Definition getitem (q : ndarray) (i j : Z) : outcome float :=
  obind (getrow q i) (fun row =>
    match np_index (length row) j with
    | Some k => match row !! k with Some x => Ok x | None => Raise IndexError end
    | None => Raise IndexError
    end).

(** [q[i, j] = v], giving the array after the assignment. *)
Definition setitem (q : ndarray) (i j : Z) (v : float) : outcome ndarray :=
  match np_index (length q) i with
  | Some ki =>
      match q !! ki with
      | Some row =>
          match np_index (length row) j with
          | Some kj => Ok (<[ki := <[kj := v]> row]> q)
          | None => Raise IndexError
          end
      | None => Raise IndexError
      end
  | None => Raise IndexError
  end.

(** The entry at position [(ki, kj)], positions counted from zero. *)
Definition entry (q : ndarray) (ki kj : nat) : option float :=
  q !! ki ≫= fun row => row !! kj.

(** [np.all(row)]: every element is truthy, that is, different from zero
    (a NaN is truthy). *)
Definition np_all (row : list float) : bool :=
  forallb (fun x => negb (x == F64.zero)%f64) row.

(** A NumPy boolean compared with a float is first converted to a float. *)
Definition float_of_bool (b : bool) : float := if b then F64.one else F64.zero.

(** [np.argmax(row)]: the scan keeps the running maximum [mp] and its
    index [best]; an element replaces it when it is not [<= mp], and the
    scan stops at the first NaN. *)
Fixpoint argmax_scan (mp : float) (best i : nat) (row : list float) : nat :=
  match row with
  | [] => best
  | x :: row' =>
      if negb (x <=? mp)%f64
      then (if F64.is_nan x then i else argmax_scan x i (S i) row')
      else argmax_scan mp best (S i) row'
  end.

Definition np_argmax (row : list float) : outcome Z :=
  match row with
  | [] => Raise ValueError
  | x :: row' =>
      Ok (Z.of_nat (if F64.is_nan x then 0%nat else argmax_scan x 0 1 row'))
  end.

(** [np.max] of a list of step counts. *)
Definition np_max (l : list nat) : outcome nat :=
  match l with
  | [] => Raise ValueError
  | x :: l' => Ok (foldl Nat.max x l')
  end.

(** Python's [a / b] on two non-negative integers: the quotient as a
    float, [ZeroDivisionError] when [b] is zero. (Both operands are counts
    of episodes, far below [2^53], so converting them first is exact.) *)
Definition truediv (a b : nat) : outcome float :=
  match b with
  | O => Raise ZeroDivisionError
  | _ => Ok (F64.of_nat a / F64.of_nat b)%f64
  end.

(** ** The environment, the random generator and the console *)

(** What [env.step(action)] returns (the [info] dictionary is never read). *)
Record step_result : Type := StepResult {
  new_state : Z;
  reward : float;
  terminated : bool;
  truncated : bool
}.

(** The collaborators of the notebook, as functions on a world [W] that
    holds the state of the simulator and of the random generator:
    [env.observation_space.n], [env.action_space.n], [env.reset()],
    [env.step(action)], [env.action_space.sample()] and
    [random.uniform(0, 1)]. *)
Class Env (W : Type) : Type := {
  observation_space_n : nat;
  action_space_n : nat;
  env_reset : W -> Z * W;
  env_step : Z -> W -> step_result * W;
  action_space_sample : W -> Z * W;
  random_uniform : W -> float * W
}.

(** A line written by [print]. *)
Inductive line : Type :=
| Msg (s : string)
| MeanReward (x : float)
| MaxSteps (n : nat)
| SuccessRate (x : float).

(** The state the notebook runs in: the array object that the name
    [qtable] refers to (one object, shared by [run_env], which creates and
    returns it, and [evaluation], which receives it), the world, and the
    lines printed so far. *)
Record pystate (W : Type) : Type := PyState {
  qtable : ndarray;
  world : W;
  stdout : list line
}.
Arguments PyState {W} _ _ _.
Arguments qtable {W} _.
Arguments world {W} _.
Arguments stdout {W} _.

(** State and exceptions: a computation maps a state to an outcome and the
    state it leaves (also when it raises). *)
Definition M (W A : Type) : Type := pystate W -> outcome A * pystate W.

Definition ret {W A : Type} (a : A) : M W A := fun st => (Ok a, st).

Definition bind {W A B : Type} (c : M W A) (k : A -> M W B) : M W B :=
  fun st =>
    match c st with
    | (Ok a, st') => k a st'
    | (Raise e, st') => (Raise e, st')
    | (OutOfFuel, st') => (OutOfFuel, st')
    end.

Definition lift {W A : Type} (o : outcome A) : M W A := fun st => (o, st).

Definition out_of_fuel {W A : Type} : M W A := fun st => (OutOfFuel, st).

Definition get_qtable {W : Type} : M W ndarray := fun st => (Ok (qtable st), st).

Definition set_qtable {W : Type} (q : ndarray) : M W unit :=
  fun st => (Ok tt, PyState q (world st) (stdout st)).

Definition print {W : Type} (ln : line) : M W unit :=
  fun st => (Ok tt, PyState (qtable st) (world st) (stdout st ++ [ln])).

(** A call to a collaborator. *)
Definition call {W A : Type} (f : W -> A * W) : M W A :=
  fun st => let '(a, w) := f (world st) in (Ok a, PyState (qtable st) w (stdout st)).

Declare Scope py_scope.
Delimit Scope py_scope with py.
Notation "x <- c ;; k" := (bind c (fun x => k))
  (at level 100, c at next level, right associativity) : py_scope.
Notation "c ;; k" := (bind c (fun _ => k))
  (at level 100, right associativity) : py_scope.
Notation "'let?' x := c 'in' k" := (obind c (fun x => k))
  (at level 100, x name, c at next level, k at level 200, right associativity).

(** The local variables of an episode. *)
Record locals : Type := Locals {
  state : Z;
  done : bool;
  episode_rewards : float;
  episode_steps : nat
}.

(** [while not done: body], run for at most [fuel] passes. *)
Fixpoint while_not_done {W : Type} (body : locals -> M W locals) (fuel : nat)
    (l : locals) : M W locals :=
  if done l then ret l
  else match fuel with
       | O => out_of_fuel
       | S fuel' => (l' <- body l ;; while_not_done body fuel' l')%py
       end.

Section Notebook.

Context {W : Type} {E : Env W}.

(** The global hyperparameters of the notebook (there
    [alpha = 0.1], [gamma = 0.99], [epsilon = 0.1],
    [num_episodes = 10000]). *)
Variables alpha gamma epsilon : float.
Variable num_episodes : nat.

(** [np.mean] on a list of floats; only its result is printed. *)
Variable np_mean : list float -> float.

(** *** [greedy_epsilon] *)

(** The [else] branch of [greedy_epsilon] (exploiting). *)
Definition exploit (state : Z) : M W Z :=
  (q <- get_qtable ;;
   row <- lift (getrow q state) ;;
   x0 <- lift (getitem q state 0) ;;
   if (float_of_bool (np_all row) == x0)%f64
   then call action_space_sample
   else lift (np_argmax row))%py.

Definition greedy_epsilon (state : Z) : M W Z :=
  (u <- call random_uniform ;;
   if (u <? epsilon)%f64
   then call action_space_sample
   else exploit state)%py.

(** *** [run_env] *)

(** The four lines of the loop body that update the table
    (from [next_best_action = ...] to [qtable[state, action] += ...]). *)
Definition q_update (q : ndarray) (state action : Z) (reward : float)
    (new_state : Z) : outcome ndarray :=
  let? row := getrow q new_state in
  let? next_best_action := np_argmax row in
  let? q_next := getitem q new_state next_best_action in
  let td_target := (reward + gamma * q_next)%f64 in
  let? q_old := getitem q state action in
  let td_error := (td_target - q_old)%f64 in
  let? q_cur := getitem q state action in
  setitem q state action (q_cur + alpha * td_error)%f64.

(** What follows [env.step] in the loop body. *)
Definition train_finish (l : locals) (action : Z) (sr : step_result) : M W locals :=
  (q <- get_qtable ;;
   q' <- lift (q_update q (state l) action (reward sr) (new_state sr)) ;;
   set_qtable q' ;;
   ret {| state := new_state sr;
          done := terminated sr || truncated sr;
          episode_rewards := (episode_rewards l + reward sr)%f64;
          episode_steps := S (episode_steps l) |})%py.

(** One pass through the body of [while not done]. *)
Definition train_body (l : locals) : M W locals :=
  (action <- greedy_epsilon (state l) ;;
   sr <- call (env_step action) ;;
   train_finish l action sr)%py.

Definition train_while : nat -> locals -> M W locals :=
  while_not_done train_body.

(** The episode starts: [env.reset()], then the locals are initialised
    (the reward total is the integer [0], which the first [+=] of a float
    reward turns into a float; adding to the float [0.0] gives the same). *)
Definition episode_start : M W locals :=
  (s <- call env_reset ;;
   ret {| state := s; done := false;
          episode_rewards := F64.zero; episode_steps := 0 |})%py.

(** [for _ in range(n)], with the lists [rewards] and [steps] built so
    far. *)
Fixpoint train_for (fuel n : nat) (rewards : list float) (steps : list nat)
    : M W (list float * list nat) :=
  match n with
  | O => ret (rewards, steps)
  | S n' =>
      (l0 <- episode_start ;;
       l <- train_while fuel l0 ;;
       train_for fuel n' (rewards ++ [episode_rewards l])
                         (steps ++ [episode_steps l]))%py
  end.

(** [run_env()] up to the end of its [for] loop: the array is created,
    the episodes are run, and the two lists are complete. *)
Definition train_episodes (fuel : nat) : M W (list float * list nat) :=
  (set_qtable (np_zeros observation_space_n action_space_n) ;;
   train_for fuel num_episodes [] [])%py.

(** [run_env()]: what it returns is the array. *)
Definition run_env (fuel : nat) : M W ndarray :=
  (stats <- train_episodes fuel ;;
   print (Msg "Episodes complete") ;;
   print (MeanReward (np_mean (fst stats))) ;;
   mx <- lift (np_max (snd stats)) ;;
   print (MaxSteps mx) ;;
   get_qtable)%py.

(** *** [evaluation] *)

Definition eval_body (l : locals) : M W locals :=
  (q <- get_qtable ;;
   row <- lift (getrow q (state l)) ;;
   action <- lift (np_argmax row) ;;
   sr <- call (env_step action) ;;
   ret {| state := new_state sr;
          done := terminated sr || truncated sr;
          episode_rewards := (episode_rewards l + reward sr)%f64;
          episode_steps := S (episode_steps l) |})%py.

Definition eval_while : nat -> locals -> M W locals :=
  while_not_done eval_body.

(** [if episode_reward == 1: num_successes += 1] *)
Definition count_success (num_successes : nat) (episode_reward : float) : nat :=
  if (episode_reward == F64.one)%f64 then S num_successes else num_successes.

Fixpoint eval_for (fuel n : nat) (num_successes : nat)
    (rewards : list float) (steps : list nat)
    : M W (nat * list float * list nat) :=
  match n with
  | O => ret (num_successes, rewards, steps)
  | S n' =>
      (l0 <- episode_start ;;
       l <- eval_while fuel l0 ;;
       eval_for fuel n' (count_success num_successes (episode_rewards l))
                (rewards ++ [episode_rewards l])
                (steps ++ [episode_steps l]))%py
  end.

(** [evaluation(qtable, num_trials)], [qtable] being the array of the
    state. *)
Definition evaluation (fuel num_trials : nat) : M W unit :=
  (res <- eval_for fuel num_trials 0 [] [] ;;
   print (Msg "Evaluation complete") ;;
   print (MeanReward (np_mean (snd (fst res)))) ;;
   mx <- lift (np_max (snd res)) ;;
   print (MaxSteps mx) ;;
   rate <- lift (truediv (fst (fst res)) num_trials) ;;
   print (SuccessRate rate))%py.

End Notebook.

(** ** A scripted environment

    A stub collaborator for running the notebook on fixed data: it replays
    a list of initial states, a list of step results (whatever the action),
    a list of sampled actions and a list of uniform draws. A list that has
    run out gives a default (state [0]; a terminating step with reward
    [0]; action [0]; draw [0]). *)

Record stub : Type := Stub {
  resets : list Z;
  script : list step_result;
  samples : list Z;
  uniforms : list float
}.

Definition stub_reset (w : stub) : Z * stub :=
  match resets w with
  | [] => (0, w)
  | s :: rest => (s, Stub rest (script w) (samples w) (uniforms w))
  end.

Definition stub_step (action : Z) (w : stub) : step_result * stub :=
  match script w with
  | [] => (StepResult 0 F64.zero true false, w)
  | sr :: rest => (sr, Stub (resets w) rest (samples w) (uniforms w))
  end.

Definition stub_sample (w : stub) : Z * stub :=
  match samples w with
  | [] => (0, w)
  | a :: rest => (a, Stub (resets w) (script w) rest (uniforms w))
  end.

Definition stub_uniform (w : stub) : float * stub :=
  match uniforms w with
  | [] => (F64.zero, w)
  | u :: rest => (u, Stub (resets w) (script w) (samples w) rest)
  end.

Definition stub_env (S A : nat) : Env stub := {|
  observation_space_n := S;
  action_space_n := A;
  env_reset := stub_reset;
  env_step := stub_step;
  action_space_sample := stub_sample;
  random_uniform := stub_uniform
|}.

(** ** Vocabulary of the statements *)

(** The position that the index pair [[i, j]] denotes in [q], when both
    indices are accepted. *)
Definition position (q : ndarray) (i j : Z) : option (nat * nat) :=
  ki ← np_index (length q) i;
  row ← q !! ki;
  kj ← np_index (length row) j;
  Some (ki, kj).

(** [m] is the greatest element of [row], in NumPy's sense: an element of
    the row; a NaN when the row holds one; otherwise above every
    element. *)
Definition row_maximum (row : list float) (m : float) : Prop :=
  m ∈ row /\
  (if existsb F64.is_nan row then F64.is_nan m = true
   else forall x, x ∈ row -> (x <=? m)%f64 = true).

(** The lowest position of the row that holds a greatest element. *)
Definition first_maximum (row : list float) (k : nat) : Prop :=
  exists m, row !! k = Some m /\ row_maximum row m /\
    forall k' x, (k' < k)%nat -> row !! k' = Some x ->
      F64.is_nan x = false /\ (m <=? x)%f64 = false.

(** The value that the update rule writes:
    [old + alpha * ((r + gamma * m) - old)]. *)
Definition td_value (alpha gamma old r m : float) : float :=
  (old + alpha * ((r + gamma * m) - old))%f64.

(** The test that guards the random choice in the exploiting branch,
    [np.all(row) == row[0]]. *)
Definition guard (row : list float) (x0 : float) : bool :=
  (float_of_bool (np_all row) == x0)%f64.

(** The same transition [(s, a, r, s')] put through the update rule [n]
    times, as the convergence test of the specification does. *)
Fixpoint replay (alpha gamma : float) (s a : Z) (r : float) (s' : Z)
    (n : nat) (q : ndarray) : outcome ndarray :=
  match n with
  | O => Ok q
  | S n' =>
      let? q1 := q_update alpha gamma q s a r s' in
      replay alpha gamma s a r s' n' q1
  end.

(** On a self-loop whose action is the greedy one, the entry [v] is also
    the greatest value of the next row, and the rule maps it to
    [v + alpha * ((r + gamma * v) - v)]. *)
Fixpoint self_loop_value (alpha gamma r : float) (n : nat) (v : float) : float :=
  match n with
  | O => v
  | S n' => self_loop_value alpha gamma r n' (td_value alpha gamma v r v)
  end.

(** The first [n] values of that sequence are positive. *)
Fixpoint all_positive (alpha gamma r : float) (n : nat) (v : float) : bool :=
  match n with
  | O => true
  | S n' => (F64.zero <? v)%f64 && all_positive alpha gamma r n' (td_value alpha gamma v r v)
  end.

(** A computation that leaves a component of the state as it found it,
    however it ends. *)
Definition keeps {W X A : Type} (proj : pystate W -> X) (c : M W A) : Prop :=
  forall st, proj (snd (c st)) = proj st.

(** A computation that never assigns to the array, and one that never
    prints. *)
Abbreviation reads_only := (keeps qtable).
Abbreviation silent := (keeps stdout).

(** The passes of a [while not done] loop from the locals [l] in state
    [st] to the locals [l'] in state [st']: each pass starts with [done]
    false and runs the body to its end. *)
Inductive passes {W : Type} (body : locals -> M W locals)
  : locals -> pystate W -> locals -> pystate W -> Prop :=
| passes_none l st : passes body l st l st
| passes_more l st l1 st1 l' st' :
    done l = false ->
    body l st = (Ok l1, st1) ->
    passes body l1 st1 l' st' ->
    passes body l st l' st'.

(** The number of episodes whose total reward is exactly [1]. *)
Definition successes (rewards : list float) : nat :=
  length (List.filter (fun x => (x == F64.one)%f64) rewards).

(** A computation without a [while] loop never runs out of fuel. *)
Definition loop_free {W A : Type} (c : M W A) : Prop :=
  forall st, fst (c st) <> OutOfFuel.

(** What a computation guarantees from a state that satisfies [P]: [Q]
    of the value and the state when it returns, [R] of the exception (or
    of [None], when the fuel is spent) and the state otherwise. *)
Definition triple {W A : Type} (P : pystate W -> Prop) (c : M W A)
    (Q : A -> pystate W -> Prop) (R : option exn -> pystate W -> Prop) : Prop :=
  forall st, P st ->
    match c st with
    | (Ok a, st') => Q a st'
    | (Raise e, st') => R (Some e) st'
    | (OutOfFuel, st') => R None st'
    end.

(** The contract of the collaborators: the states they report lie in
    [[0, S)] and the actions they sample in [[0, A)]. *)
Definition env_contract {W : Type} (E : Env W) : Prop :=
  (forall w, 0 <= fst (env_reset w) < Z.of_nat observation_space_n) /\
  (forall a w,
     0 <= new_state (fst (env_step a w)) < Z.of_nat observation_space_n) /\
  (forall w, 0 <= fst (action_space_sample w) < Z.of_nat action_space_n).

(** The last cell of the notebook:
    [qtable = run_env(); evaluation(qtable, 10); env.close()]. *)
Definition notebook_main {W : Type} {E : Env W} (alpha gamma epsilon : float)
    (num_episodes : nat) (np_mean : list float -> float)
    (env_close : W -> unit * W) (fuel : nat) : M W unit :=
  (_ <- run_env alpha gamma epsilon num_episodes np_mean fuel ;;
   evaluation np_mean fuel 10 ;;
   call env_close)%py.

(** The locals after one more step of the environment. *)
Definition next_locals (l : locals) (sr : step_result) : locals :=
  {| state := new_state sr;
     done := terminated sr || truncated sr;
     episode_rewards := (episode_rewards l + reward sr)%f64;
     episode_steps := S (episode_steps l) |}.

(** ** A corridor environment

    A second stub, which honours the contract in every world: two states
    and two actions; an episode starts in state [0] and stays there for
    two steps with reward [0]; the third step reaches state [1] with
    reward [r_final] and terminates. The world is the number of steps
    left before the last one. The sampler answers [1], the generator
    [0.5]. *)
Definition corridor_env (r_final : float) : Env nat := {|
  observation_space_n := 2;
  action_space_n := 2;
  env_reset := fun _ => (0, 2%nat);
  env_step := fun _ w =>
    match w with
    | O => (StepResult 1 r_final true false, O)
    | S w' => (StepResult 0 F64.zero false false, w')
    end;
  action_space_sample := fun w => (1, w);
  random_uniform := fun w => (F64.half, w)
|}.

(** ** Indexing *)

Section Indexing.

Lemma np_index_lt n i k : np_index n i = Some k -> (k < n)%nat.
Proof.
  unfold np_index. intros Hi.
  destruct ((0 <=? i) && (i <? Z.of_nat n)) eqn:E1.
  - apply andb_prop in E1 as [?%Z.leb_le ?%Z.ltb_lt]. inversion Hi. lia.
  - destruct ((- Z.of_nat n <=? i) && (i <? 0)) eqn:E2; [|discriminate].
    apply andb_prop in E2 as [?%Z.leb_le ?%Z.ltb_lt]. inversion Hi. lia.
Qed.

Lemma np_index_in_range n i :
  is_Some (np_index n i) <-> - Z.of_nat n <= i < Z.of_nat n.
Proof.
  unfold np_index.
  destruct ((0 <=? i) && (i <? Z.of_nat n)) eqn:E1.
  - apply andb_prop in E1 as [?%Z.leb_le ?%Z.ltb_lt]. split; [lia | eauto].
  - destruct ((- Z.of_nat n <=? i) && (i <? 0)) eqn:E2.
    + apply andb_prop in E2 as [?%Z.leb_le ?%Z.ltb_lt]. split; [lia | eauto].
    + split; [intros [? ?]; discriminate |].
      intros Hr. apply andb_false_iff in E1, E2.
      rewrite Z.leb_gt, Z.ltb_ge in E1, E2. lia.
Qed.

Lemma np_index_nonneg n (k : nat) :
  (k < n)%nat -> np_index n (Z.of_nat k) = Some k.
Proof.
  intros Hk. unfold np_index.
  replace (0 <=? Z.of_nat k) with true by (symmetry; apply Z.leb_le; lia).
  replace (Z.of_nat k <? Z.of_nat n) with true by (symmetry; apply Z.ltb_lt; lia).
  cbn. f_equal. lia.
Qed.

Lemma getrow_Ok q i row :
  getrow q i = Ok row <->
  exists ki, np_index (length q) i = Some ki /\ q !! ki = Some row.
Proof.
  unfold getrow. split.
  - destruct (np_index (length q) i) as [ki|]; [|discriminate].
    destruct (q !! ki) eqn:E; [|discriminate]. intros [= <-]. eauto.
  - intros (ki & -> & ->). reflexivity.
Qed.

Lemma getitem_position q i j :
  getitem q i j =
    match position q i j with
    | Some (ki, kj) =>
        match entry q ki kj with Some x => Ok x | None => Raise IndexError end
    | None => Raise IndexError
    end.
Proof.
  unfold getitem, getrow, position, entry.
  destruct (np_index (length q) i) as [ki|]; cbn; [|reflexivity].
  destruct (q !! ki) as [row|] eqn:Er; cbn; [|reflexivity].
  destruct (np_index (length row) j) as [kj|]; cbn; [|reflexivity].
  rewrite Er. reflexivity.
Qed.

Lemma position_entry q i j ki kj :
  position q i j = Some (ki, kj) -> is_Some (entry q ki kj).
Proof.
  unfold position, entry. intros Hp.
  destruct (np_index (length q) i) as [ki'|]; cbn in Hp; [|discriminate].
  destruct (q !! ki') as [row|] eqn:Er; cbn in Hp; [|discriminate].
  destruct (np_index (length row) j) as [kj'|] eqn:Ej; cbn in Hp; [|discriminate].
  injection Hp as <- <-. rewrite Er. cbn.
  apply lookup_lt_is_Some. eapply np_index_lt, Ej.
Qed.

Lemma getitem_Ok q i j x :
  getitem q i j = Ok x <->
  exists ki kj, position q i j = Some (ki, kj) /\ entry q ki kj = Some x.
Proof.
  rewrite getitem_position. split.
  - destruct (position q i j) as [[ki kj]|]; [|discriminate].
    destruct (entry q ki kj) eqn:E; [|discriminate]. intros [= <-]. eauto.
  - intros (ki & kj & -> & ->). reflexivity.
Qed.

Lemma setitem_position q i j v :
  setitem q i j v =
    match position q i j with
    | Some (ki, kj) =>
        match q !! ki with
        | Some row => Ok (<[ki := <[kj := v]> row]> q)
        | None => Raise IndexError
        end
    | None => Raise IndexError
    end.
Proof.
  unfold setitem, position.
  destruct (np_index (length q) i) as [ki|]; cbn; [|reflexivity].
  destruct (q !! ki) as [row|] eqn:Er; cbn; [|reflexivity].
  destruct (np_index (length row) j) as [kj|]; cbn; [|reflexivity].
  rewrite Er. reflexivity.
Qed.

(** Reading back what an assignment wrote, and everything else. *)
Lemma entry_insert_eq (q : list (list float)) ki kj row v :
  q !! ki = Some row -> (kj < length row)%nat ->
  entry (<[ki := <[kj := v]> row]> q) ki kj = Some v.
Proof.
  intros Hr Hj. unfold entry.
  rewrite list_lookup_insert_eq by (eapply lookup_lt_Some, Hr). cbn.
  by apply list_lookup_insert_eq.
Qed.

Lemma entry_insert_ne (q : list (list float)) ki kj row v i j :
  q !! ki = Some row -> (i, j) <> (ki, kj) ->
  entry (<[ki := <[kj := v]> row]> q) i j = entry q i j.
Proof.
  intros Hr Hne. unfold entry.
  destruct (decide (i = ki)) as [->|Hi].
  - rewrite list_lookup_insert_eq by (eapply lookup_lt_Some, Hr).
    rewrite Hr. cbn. apply list_lookup_insert_ne. congruence.
  - by rewrite list_lookup_insert_ne.
Qed.

Lemma position_insert (q : list (list float)) ki kj row v i j :
  q !! ki = Some row ->
  position (<[ki := <[kj := v]> row]> q) i j = position q i j.
Proof.
  intros Hr. unfold position. rewrite length_insert.
  destruct (np_index (length q) i) as [k|]; cbn; [|reflexivity].
  destruct (decide (k = ki)) as [->|Hk].
  - rewrite list_lookup_insert_eq by (eapply lookup_lt_Some, Hr).
    rewrite Hr. cbn. by rewrite length_insert.
  - by rewrite list_lookup_insert_ne.
Qed.

End Indexing.

(** ** The order on binary64 numbers *)

Module F64Order.

Lemma leb_nan_l x y : F64.is_nan x = true -> (x <=? y)%f64 = false.
Proof. by destruct x. Qed.

Lemma leb_nan_r x y : F64.is_nan y = true -> (x <=? y)%f64 = false.
Proof. destruct y; try discriminate. by destruct x. Qed.

Lemma leb_key x y :
  F64.is_nan x = false -> F64.is_nan y = false ->
  (x <=? y)%f64 = true <-> F64.lex_le (F64.key x) (F64.key y).
Proof.
  intros Hx Hy.
  destruct x as [sx|sx| |sx mx ex]; try discriminate;
    destruct y as [sy|sy| |sy my ey]; try discriminate;
    try destruct sx; try destruct sy; cbn;
    try (split; [intros; lia | reflexivity]);
    try (split; [discriminate | intros; lia]);
    unfold F64.leb, SFleb, SFcompare;
    change (Pos.compare_cont Eq mx my) with (Pos.compare mx my);
    destruct (Z.compare_spec ex ey); destruct (Pos.compare_spec mx my);
    cbn; split; intros; try reflexivity; try discriminate; lia.
Qed.

Lemma leb_not_nan x y :
  (x <=? y)%f64 = true -> F64.is_nan x = false /\ F64.is_nan y = false.
Proof.
  intros Hle. split.
  - destruct (F64.is_nan x) eqn:E; [|done]. by rewrite leb_nan_l in Hle.
  - destruct (F64.is_nan y) eqn:E; [|done]. by rewrite leb_nan_r in Hle.
Qed.

Lemma leb_not_nan_l x y : (x <=? y)%f64 = true -> F64.is_nan x = false.
Proof. intros Hle. by apply leb_not_nan in Hle as [? _]. Qed.

Lemma leb_refl x : F64.is_nan x = false -> (x <=? x)%f64 = true.
Proof.
  intros Hx. apply leb_key; [done..|].
  unfold F64.lex_le. destruct (F64.key x) as [[a b] c]. lia.
Qed.

Lemma leb_trans x y z :
  (x <=? y)%f64 = true -> (y <=? z)%f64 = true -> (x <=? z)%f64 = true.
Proof.
  intros Hxy Hyz.
  destruct (leb_not_nan _ _ Hxy) as [Hx Hy].
  destruct (leb_not_nan _ _ Hyz) as [_ Hz].
  apply leb_key in Hxy, Hyz; try done. apply leb_key; try done.
  unfold F64.lex_le in *.
  destruct (F64.key x) as [[a1 a2] a3], (F64.key y) as [[b1 b2] b3],
    (F64.key z) as [[c1 c2] c3]. lia.
Qed.

Lemma leb_total x y :
  F64.is_nan x = false -> F64.is_nan y = false ->
  (x <=? y)%f64 = true \/ (y <=? x)%f64 = true.
Proof.
  intros Hx Hy.
  assert (F64.lex_le (F64.key x) (F64.key y) \/ F64.lex_le (F64.key y) (F64.key x)) as [Hl|Hl].
  { unfold F64.lex_le.
    destruct (F64.key x) as [[a1 a2] a3], (F64.key y) as [[b1 b2] b3]. lia. }
  - left. by apply leb_key.
  - right. by apply leb_key.
Qed.

Lemma compare_antisym x y :
  SFcompare y x = CompOpp <$> SFcompare x y.
Proof.
  destruct x as [sx|sx| |sx mx ex], y as [sy|sy| |sy my ey];
    try destruct sx; try destruct sy; try reflexivity;
    unfold SFcompare;
    change (Pos.compare_cont Eq mx my) with (Pos.compare mx my);
    change (Pos.compare_cont Eq my mx) with (Pos.compare my mx);
    rewrite (Z.compare_antisym ex ey), (Pos.compare_antisym mx my);
    destruct (ex ?= ey); destruct (mx ?= my)%positive; reflexivity.
Qed.

Lemma eqb_sym x y : (x == y)%f64 = (y == x)%f64.
Proof.
  unfold F64.eqb, SFeqb. rewrite (compare_antisym x y).
  by destruct (SFcompare x y) as [[]|].
Qed.

(** [x < y] implies [x <= y]. *)
Lemma ltb_leb x y : (x <? y)%f64 = true -> (x <=? y)%f64 = true.
Proof.
  unfold F64.ltb, F64.leb, SFltb, SFleb.
  by destruct (SFcompare x y) as [[]|].
Qed.

(** [x < y] excludes [y <= x]. *)
Lemma ltb_not_leb x y : (x <? y)%f64 = true -> (y <=? x)%f64 = false.
Proof.
  unfold F64.ltb, F64.leb, SFltb, SFleb. rewrite (compare_antisym x y).
  by destruct (SFcompare x y) as [[]|].
Qed.

End F64Order.

(** ** [np.argmax] *)

Section Argmax.

Import F64Order.

Lemma argmax_scan_spec row : forall pre mp best,
  F64.is_nan mp = false ->
  pre !! best = Some mp ->
  (forall x, x ∈ pre -> (x <=? mp)%f64 = true) ->
  (forall k' x, (k' < best)%nat -> pre !! k' = Some x -> (mp <=? x)%f64 = false) ->
  first_maximum (pre ++ row) (argmax_scan mp best (length pre) row).
Proof.
  induction row as [|x row IH]; intros pre mp best Hmp Hbest Hub Hlow.
  - cbn. rewrite app_nil_r. exists mp. split; [done|]. split.
    + split; [by eapply list_elem_of_lookup_2|].
      replace (existsb F64.is_nan pre) with false; [done|].
      symmetry. apply not_true_is_false. intros (y & Hy & Hn)%existsb_exists.
      apply list_elem_of_In, Hub, leb_not_nan_l in Hy. congruence.
    + intros k' y Hk Hy. split; [|by eapply Hlow].
      eapply leb_not_nan_l, Hub, list_elem_of_lookup_2, Hy.
  - cbn [argmax_scan].
    assert (Hcons : pre ++ x :: row = (pre ++ [x]) ++ row)
      by (by rewrite <- app_assoc).
    assert (Hlen : S (length pre) = length (pre ++ [x]))
      by (rewrite length_app; cbn; lia).
    assert (Hbl : (best < length pre)%nat) by (eapply lookup_lt_Some, Hbest).
    destruct (x <=? mp)%f64 eqn:Hle; cbn [negb].
    + (* the running maximum stays *)
      rewrite Hcons, Hlen. apply IH; [done| | |].
      * by apply lookup_app_l_Some.
      * intros y [Hy| ->%list_elem_of_singleton]%elem_of_app; [by apply Hub|done].
      * intros k' y Hk Hy. rewrite lookup_app_l in Hy by lia. by eapply Hlow.
    + destruct (F64.is_nan x) eqn:Hnan.
      * (* the scan stops at the first NaN *)
        exists x. split; [by rewrite list_lookup_middle|]. split.
        -- split; [apply elem_of_app; right; left|].
           replace (existsb F64.is_nan (pre ++ x :: row)) with true; [done|].
           symmetry. apply existsb_exists. exists x. split; [|done].
           apply in_or_app. right. by left.
        -- intros k' y Hk Hy. rewrite lookup_app_l in Hy by done.
           split; [|by apply leb_nan_l].
           eapply leb_not_nan_l, Hub, list_elem_of_lookup_2, Hy.
      * (* a new maximum *)
        assert (Hlt : (mp <=? x)%f64 = true).
        { destruct (leb_total mp x) as [?|?]; [done..|congruence]. }
        rewrite Hcons, Hlen. apply IH; [done| | |].
        -- rewrite lookup_app_r by done. by rewrite Nat.sub_diag.
        -- intros y [Hy| ->%list_elem_of_singleton]%elem_of_app.
           ++ eapply leb_trans; [by apply Hub|done].
           ++ by apply leb_refl.
        -- intros k' y Hk Hy. rewrite lookup_app_l in Hy by done.
           destruct (x <=? y)%f64 eqn:Hxy; [|done].
           assert ((x <=? mp)%f64 = true); [|congruence].
           eapply leb_trans; [done|]. eapply Hub, list_elem_of_lookup_2, Hy.
Qed.

(** [np.argmax] of a row that is not empty is the lowest position of a
    greatest element. *)
Lemma np_argmax_spec row :
  row <> [] ->
  exists k, np_argmax row = Ok (Z.of_nat k) /\ first_maximum row k.
Proof.
  destruct row as [|x row]; [done|]. intros _. cbn [np_argmax].
  eexists. split; [reflexivity|].
  destruct (F64.is_nan x) eqn:Hnan.
  - exists x. split; [done|]. split.
    + split; [left|]. cbn. by rewrite Hnan.
    + intros k' y Hk. lia.
  - apply (argmax_scan_spec row [x] x 0%nat); [done|done| |].
    + intros y ->%list_elem_of_singleton. by apply leb_refl.
    + intros k' y Hk. lia.
Qed.

Lemma np_argmax_Ok row k :
  np_argmax row = Ok k ->
  0 <= k /\ first_maximum row (Z.to_nat k).
Proof.
  intros Hk. destruct (decide (row = [])) as [->|Hne]; [discriminate|].
  destruct (np_argmax_spec row Hne) as (k' & Hk' & Hmax).
  rewrite Hk in Hk'. injection Hk' as ->. rewrite Nat2Z.id. split; [lia|done].
Qed.

(** A row has one lowest position of a greatest element. *)
Lemma first_maximum_unique row k1 k2 :
  first_maximum row k1 -> first_maximum row k2 -> k1 = k2.
Proof.
  assert (Hlt : forall a b, first_maximum row a -> first_maximum row b ->
                            ~ (a < b)%nat).
  { intros a b (ma & Ha & [_ Hma] & _) (mb & Hb & [Hin Hmb] & Hlow) Hab.
    destruct (Hlow a ma Hab Ha) as [Hnan Hle].
    destruct (existsb F64.is_nan row) eqn:E.
    - congruence.
    - rewrite Hma in Hle; [done|]. done. }
  intros H1 H2. pose proof (Hlt _ _ H1 H2). pose proof (Hlt _ _ H2 H1). lia.
Qed.

End Argmax.

(** ** Binary64 arithmetic used by the update rule *)

Module F64Arith.

(** The literals are the binary64 numbers nearest to their decimals. *)
Lemma literals_nearest :
  F64.nearest F64.one 1 1 = true /\
  F64.nearest F64.half 1 2 = true /\
  F64.nearest F64.two 2 1 = true /\
  F64.nearest F64.three 3 1 = true /\
  F64.nearest F64.ten 10 1 = true /\
  F64.nearest F64.lit_0_1 1 10 = true /\
  F64.nearest F64.lit_0_9 9 10 = true /\
  F64.nearest F64.lit_0_99 99 100 = true /\
  F64.nearest F64.lit_1e_3 1 1000 = true.
Proof. repeat split; vm_compute; reflexivity. Qed.

Lemma mul_zero_finite x :
  F64.is_finite x = true -> exists s, (F64.zero * x)%f64 = S754_zero s.
Proof. intros Hx. destruct x; try discriminate Hx; cbn; eauto. Qed.

Lemma add_one_zero s : (F64.one + S754_zero s)%f64 = F64.one.
Proof. reflexivity. Qed.

Lemma eqb_zero x : (x == F64.zero)%f64 = true -> exists s, x = S754_zero s.
Proof.
  intros Hx. destruct x as [s|[]| |[] m e]; try discriminate Hx; eauto.
Qed.

Lemma sub_one_zero s : (F64.one - S754_zero s)%f64 = F64.one.
Proof. reflexivity. Qed.

Lemma digits_shift52 m :
  Z.pos (digits2_pos (4503599627370496 * m)) = Z.pos (digits2_pos m) + 52.
Proof. lazy [Pos.mul]. cbn [digits2_pos]. lia. Qed.

(** Multiplying a (valid) finite number by [1.0] is exact. *)
Lemma mul_one_r s m e :
  F64.valid (S754_finite s m e) = true ->
  (S754_finite s m e * F64.one)%f64 = S754_finite s m e.
Proof.
  unfold F64.valid, valid_binary, bounded, canonical_mantissa.
  intros [Hc He]%andb_prop. apply Z.eqb_eq in Hc.
  unfold F64.mul, F64.one, SFmul. rewrite Pos.mul_comm, xorb_false_r.
  unfold binary_round_aux, shr_fexp.
  cbn [Zdigits2]. rewrite digits_shift52.
  replace (Z.pos (digits2_pos m) + 52 + (e + -52))
    with (Z.pos (digits2_pos m) + e) by lia.
  rewrite Hc. replace (e - (e + -52)) with 52 by lia.
  lazy [Pos.mul]. cbn [shr shr_record_of_loc SpecFloat.iter_pos shr_1 orb].
  cbn [shr_m loc_of_shr_record round_nearest_even Zdigits2].
  replace (e + -52 + 52) with e by lia.
  rewrite Hc, Z.sub_diag. cbn [shr shr_m].
  rewrite He. reflexivity.
Qed.

(** A learning rate in [(0, 1]] is a positive finite number. *)
Lemma unit_interval alpha :
  (F64.zero <? alpha)%f64 = true -> (alpha <=? F64.one)%f64 = true ->
  exists m e, alpha = S754_finite false m e.
Proof.
  intros H0 H1.
  destruct alpha as [s|[]| |[] m e];
    try discriminate H0; try discriminate H1; eauto.
Qed.

Lemma add_zero_l s m e :
  (S754_zero s + S754_finite false m e)%f64 = S754_finite false m e.
Proof. reflexivity. Qed.

End F64Arith.

(** ** The update rule *)

Section UpdateRule.

Variables alpha gamma : float.

(** The update, run on an array in which the indices are accepted. *)
Lemma q_update_eval (q : ndarray) s a r s' row' k m ki kj rowS old :
  getrow q s' = Ok row' ->
  np_argmax row' = Ok (Z.of_nat k) ->
  row' !! k = Some m ->
  position q s a = Some (ki, kj) ->
  q !! ki = Some rowS ->
  rowS !! kj = Some old ->
  q_update alpha gamma q s a r s' =
    Ok (<[ki := <[kj := td_value alpha gamma old r m]> rowS]> q).
Proof.
  intros Hrow Hk Hm Hpos HrowS Hold. unfold q_update.
  rewrite Hrow. cbn [obind]. rewrite Hk. cbn [obind].
  assert (Hnext : getitem q s' (Z.of_nat k) = Ok m).
  { unfold getitem. rewrite Hrow. cbn [obind].
    rewrite np_index_nonneg by (eapply lookup_lt_Some, Hm). by rewrite Hm. }
  assert (Hget : getitem q s a = Ok old).
  { apply getitem_Ok. exists ki, kj. split; [done|].
    unfold entry. rewrite HrowS. done. }
  rewrite Hnext. cbn [obind]. rewrite Hget. cbn [obind].
  rewrite setitem_position, Hpos, HrowS. reflexivity.
Qed.

(** Conversely, an update that succeeded went through these steps. *)
Lemma q_update_Ok (q : ndarray) s a r s' q' :
  q_update alpha gamma q s a r s' = Ok q' ->
  exists row' k m ki kj rowS old,
    getrow q s' = Ok row' /\
    np_argmax row' = Ok (Z.of_nat k) /\
    row' !! k = Some m /\
    position q s a = Some (ki, kj) /\
    q !! ki = Some rowS /\
    rowS !! kj = Some old /\
    q' = <[ki := <[kj := td_value alpha gamma old r m]> rowS]> q.
Proof.
  unfold q_update. intros Hq.
  destruct (getrow q s') as [row'| |] eqn:Hrow; try discriminate.
  cbn [obind] in Hq.
  destruct (np_argmax row') as [kb| |] eqn:Hk; try discriminate.
  cbn [obind] in Hq.
  destruct (np_argmax_Ok _ _ Hk) as [Hkb Hmax].
  destruct Hmax as (m & Hm & _).
  assert (Hkb' : kb = Z.of_nat (Z.to_nat kb)) by lia.
  assert (Hnext : getitem q s' kb = Ok m).
  { unfold getitem. rewrite Hrow. cbn [obind]. rewrite Hkb'.
    rewrite np_index_nonneg by (eapply lookup_lt_Some, Hm). by rewrite Hm. }
  rewrite Hnext in Hq. cbn [obind] in Hq.
  destruct (getitem q s a) as [old| |] eqn:Hget; try discriminate.
  cbn [obind] in Hq.
  apply getitem_Ok in Hget as (ki & kj & Hpos & Hent).
  unfold entry in Hent.
  destruct (q !! ki) as [rowS|] eqn:HrowS; [|discriminate]. cbn in Hent.
  rewrite setitem_position, Hpos, HrowS in Hq. injection Hq as <-.
  exists row', (Z.to_nat kb), m, ki, kj, rowS, old.
  rewrite <- Hkb'. done.
Qed.

(** An update that fails leaves no array behind: the assignment is its
    last step. *)
Lemma q_update_is_Ok_iff (q : ndarray) s a r s' :
  is_Ok (q_update alpha gamma q s a r s') = true <->
  (exists row', getrow q s' = Ok row' /\ row' <> []) /\
  is_Some (position q s a).
Proof.
  split.
  - destruct (q_update alpha gamma q s a r s') as [q'| |] eqn:Hq;
      try discriminate. intros _.
    apply q_update_Ok in Hq
      as (row' & k & m & ki & kj & rowS & old & Hrow & _ & Hm & Hpos & _).
    split; [|by eauto]. exists row'. split; [done|]. by intros ->.
  - intros [(row' & Hrow & Hne) [[ki kj] Hpos]].
    destruct (np_argmax_spec row' Hne) as (k & Hk & (m & Hm & _)).
    destruct (position_entry _ _ _ _ _ Hpos) as [old Hent].
    unfold entry in Hent.
    destruct (q !! ki) as [rowS|] eqn:HrowS; [|discriminate]. cbn in Hent.
    by erewrite q_update_eval.
Qed.

End UpdateRule.

(** ** Claims about the update rule *)

(** C1, as stated, fails on a table whose next-state row holds an
    infinity: with [gamma = 0], [r = 1], [alpha = 0.1] and the old value
    zero, the row [[inf, 0]] has its maximum [inf] at index [0], the target
    is [1 + 0 * inf], a NaN, and the update writes a NaN into
    [table[s, a]], which is neither [old + alpha * (1 - old)] nor
    [alpha]. *)
Lemma q_update_infinite_next_counterexample :
  let inf := S754_infinity false in
  let q := [[F64.zero; F64.zero]; [inf; F64.zero]] in
  let q' := [[S754_nan; F64.zero]; [inf; F64.zero]] in
  getitem q 0 0 = Ok F64.zero /\
  np_argmax [inf; F64.zero] = Ok 0 /\
  row_maximum [inf; F64.zero] inf /\
  (F64.zero <? F64.lit_0_1)%f64 = true /\
  (F64.lit_0_1 <=? F64.one)%f64 = true /\
  q_update F64.lit_0_1 F64.zero q 0 0 F64.one 1 = Ok q' /\
  getitem q' 0 0 = Ok S754_nan /\
  getitem q' 0 0 <> Ok (F64.zero + F64.lit_0_1 * (F64.one - F64.zero))%f64 /\
  getitem q' 0 0 <> Ok F64.lit_0_1.
Proof.
  cbv zeta. repeat split; try reflexivity; try discriminate.
  - apply list_elem_of_here.
  - intros x Hx. apply elem_of_cons in Hx as [->|Hx]; [reflexivity|].
    apply list_elem_of_singleton in Hx as ->. reflexivity.
Qed.

(** C1, amended. One application of the update rule, on indices that the
    array accepts, succeeds and sets [table[s, a]] to
    [old + alpha * ((r + gamma * m) - old)], where [m] is the greatest
    value of the row of the next state. With [gamma = 0], [r = 1] and [m]
    finite this is [old + alpha * (1 - old)], and it is exactly [alpha]
    when the old value is zero and [alpha] lies in [(0, 1]]. *)
Theorem q_update_rule (alpha gamma : float) (q : ndarray) (s a : Z)
    (r : float) (s' : Z) (old : float) (row' : list float) :
  getitem q s a = Ok old ->
  getrow q s' = Ok row' ->
  row' <> [] ->
  exists m q',
    row_maximum row' m /\
    q_update alpha gamma q s a r s' = Ok q' /\
    getitem q' s a = Ok (old + alpha * ((r + gamma * m) - old))%f64 /\
    (gamma = F64.zero -> r = F64.one -> F64.is_finite m = true ->
     getitem q' s a = Ok (old + alpha * (F64.one - old))%f64 /\
     (F64.valid alpha = true ->
      (F64.zero <? alpha)%f64 = true -> (alpha <=? F64.one)%f64 = true ->
      (old == F64.zero)%f64 = true ->
      getitem q' s a = Ok alpha)).
Proof.
  intros Hold Hrow Hne.
  apply getitem_Ok in Hold as (ki & kj & Hpos & Hent).
  unfold entry in Hent.
  destruct (q !! ki) as [rowS|] eqn:HrowS; [|discriminate]. cbn in Hent.
  destruct (np_argmax_spec row' Hne) as (k & Hk & (m & Hm & Hmax & _)).
  exists m. eexists. split; [done|].
  split; [by eapply q_update_eval|].
  assert (Hnew : forall v, getitem (<[ki := <[kj := v]> rowS]> q) s a = Ok v).
  { intros v. apply getitem_Ok. exists ki, kj.
    split; [by rewrite position_insert|].
    apply entry_insert_eq; [done|]. eapply lookup_lt_Some, Hent. }
  split; [apply Hnew|].
  intros -> -> Hm_fin. rewrite Hnew. unfold td_value.
  destruct (F64Arith.mul_zero_finite m Hm_fin) as [s0 ->].
  rewrite F64Arith.add_one_zero. split; [done|].
  intros Hvalid Hpos0 Hle1 Hzero.
  destruct (F64Arith.eqb_zero old Hzero) as [s1 ->].
  destruct (F64Arith.unit_interval alpha Hpos0 Hle1) as (ma & ea & ->).
  rewrite F64Arith.sub_one_zero, F64Arith.mul_one_r by done.
  by rewrite F64Arith.add_zero_l.
Qed.

Lemma q_update_rule_witness :
  getitem (np_zeros 2 2) 0 1 = Ok F64.zero /\
  getrow (np_zeros 2 2) 1 = Ok [F64.zero; F64.zero] /\
  exists m q',
    row_maximum [F64.zero; F64.zero] m /\
    q_update F64.lit_0_1 F64.zero (np_zeros 2 2) 0 1 F64.one 1 = Ok q' /\
    getitem q' 0 1 = Ok F64.lit_0_1.
Proof.
  split; [reflexivity|]. split; [reflexivity|].
  destruct (q_update_rule F64.lit_0_1 F64.zero (np_zeros 2 2) 0 1 F64.one 1
              F64.zero [F64.zero; F64.zero])
    as (m & q' & Hmax & Hq & _ & Hpart);
    [reflexivity | reflexivity | discriminate |].
  exists m, q'. split; [exact Hmax|]. split; [exact Hq|].
  apply Hpart; try reflexivity.
  destruct Hmax as [Hin _].
  apply elem_of_cons in Hin as [->|Hin]; [reflexivity|].
  apply list_elem_of_singleton in Hin as ->. reflexivity.
Defined.

(** C10. One application of the update rule changes at most the entry at
    the position of [(s, a)]: every other entry, and the shape of the
    array, stay as they were. *)
Theorem q_update_frame (alpha gamma : float) (q : ndarray) (s a : Z)
    (r : float) (s' : Z) (q' : ndarray) :
  q_update alpha gamma q s a r s' = Ok q' ->
  exists ki kj,
    position q s a = Some (ki, kj) /\
    (forall i j, (i, j) <> (ki, kj) -> entry q' i j = entry q i j) /\
    length q' = length q /\
    (forall i, length <$> q' !! i = length <$> q !! i).
Proof.
  intros Hq.
  apply q_update_Ok in Hq
    as (row' & k & m & ki & kj & rowS & old & _ & _ & _ & Hpos & HrowS & _ & ->).
  exists ki, kj. split; [done|]. split; [|split].
  - intros i j Hne. by apply entry_insert_ne.
  - apply length_insert.
  - intros i. destruct (decide (i = ki)) as [->|Hi].
    + rewrite list_lookup_insert_eq by (eapply lookup_lt_Some, HrowS).
      rewrite HrowS. cbn. by rewrite length_insert.
    + by rewrite list_lookup_insert_ne.
Qed.

Lemma q_update_frame_witness :
  q_update F64.lit_0_1 F64.lit_0_9 [[F64.zero; F64.one]; [F64.two; F64.three]]
           0 1 F64.one (-1)
    = Ok [[F64.zero;
           S754_finite false 5719571526760530 (-52)];
          [F64.two; F64.three]] /\
  exists ki kj,
    position [[F64.zero; F64.one]; [F64.two; F64.three]] 0 1 = Some (ki, kj) /\
    (forall i j, (i, j) <> (ki, kj) ->
       entry [[F64.zero; S754_finite false 5719571526760530 (-52)];
              [F64.two; F64.three]] i j
       = entry [[F64.zero; F64.one]; [F64.two; F64.three]] i j).
Proof.
  split; [vm_compute; reflexivity|].
  destruct (q_update_frame F64.lit_0_1 F64.lit_0_9
              [[F64.zero; F64.one]; [F64.two; F64.three]] 0 1 F64.one (-1)
              [[F64.zero; S754_finite false 5719571526760530 (-52)];
               [F64.two; F64.three]])
    as (ki & kj & Hpos & Hframe & _); [vm_compute; reflexivity|].
  exists ki, kj. split; [exact Hpos | exact Hframe].
Defined.

(** ** The action selector *)

Section Selector.

Context {W : Type} {E : Env W}.

(** With [epsilon = 0] a draw of [random.uniform(0, 1)], which is never
    negative, sends the selector to the exploiting branch. *)
Lemma greedy_epsilon_zero (s : Z) (st : pystate W) :
  (fst (random_uniform (world st)) <? F64.zero)%f64 = false ->
  greedy_epsilon F64.zero s st =
    exploit s (PyState (qtable st) (snd (random_uniform (world st))) (stdout st)).
Proof.
  intros Hu. unfold greedy_epsilon, bind, call.
  destruct (random_uniform (world st)) as [u w]. cbn in Hu |- *.
  by rewrite Hu.
Qed.

Lemma exploit_unfold (s : Z) (st : pystate W) row x0 :
  getrow (qtable st) s = Ok row ->
  row !! 0%nat = Some x0 ->
  exploit s st =
    if guard row x0 then call action_space_sample st
    else (np_argmax row, st).
Proof.
  intros Hrow Hx0. unfold exploit, bind, get_qtable, lift, getitem, guard.
  rewrite Hrow. cbn [obind].
  rewrite (np_index_nonneg _ 0) by (eapply lookup_lt_Some, Hx0).
  rewrite Hx0. by destruct (float_of_bool (np_all row) == x0)%f64.
Qed.

(** The guard is passed exactly when the first entry is zero and some
    entry is zero, or the first entry is one and no entry is zero. *)
Lemma guard_true_iff row x0 :
  guard row x0 = true <->
  (np_all row = false /\ (x0 == F64.zero)%f64 = true) \/
  (np_all row = true /\ (x0 == F64.one)%f64 = true).
Proof.
  unfold guard. rewrite F64Order.eqb_sym.
  destruct (np_all row); cbn [float_of_bool]; intuition congruence.
Qed.

(** A row whose first entry is zero passes the guard, whatever its other
    entries: the exploiting branch then samples. *)
Lemma exploit_first_entry_zero (s : Z) (st : pystate W) row x0 :
  getrow (qtable st) s = Ok row ->
  row !! 0%nat = Some x0 ->
  (x0 == F64.zero)%f64 = true ->
  exploit s st = call action_space_sample st.
Proof.
  intros Hrow Hx0 Hzero. rewrite (exploit_unfold s st row x0) by done.
  replace (guard row x0) with true; [done|].
  symmetry. apply guard_true_iff. left. split; [|done].
  destruct row as [|y row]; [done|]. injection Hx0 as ->.
  cbn. by rewrite Hzero.
Qed.

(** When the guard is not passed, the exploiting branch returns the
    lowest index of a greatest entry of the row. *)
Lemma exploit_greedy (s : Z) (st : pystate W) row x0 :
  getrow (qtable st) s = Ok row ->
  row !! 0%nat = Some x0 ->
  guard row x0 = false ->
  exists k, exploit s st = (Ok (Z.of_nat k), st) /\ first_maximum row k.
Proof.
  intros Hrow Hx0 Hg. rewrite (exploit_unfold s st row x0), Hg by done.
  destruct (np_argmax_spec row) as (k & -> & Hmax); [by intros ->|].
  by exists k.
Qed.

(** So does the selector with [epsilon = 0], on such a row. *)
Lemma greedy_epsilon_zero_greedy (s : Z) (st : pystate W) row x0 :
  (fst (random_uniform (world st)) <? F64.zero)%f64 = false ->
  getrow (qtable st) s = Ok row ->
  row !! 0%nat = Some x0 ->
  guard row x0 = false ->
  exists k,
    fst (greedy_epsilon F64.zero s st) = Ok (Z.of_nat k) /\ first_maximum row k.
Proof.
  intros Hu Hrow Hx0 Hg. rewrite greedy_epsilon_zero by done.
  destruct (exploit_greedy s
              (PyState (qtable st) (snd (random_uniform (world st))) (stdout st))
              row x0) as (k & -> & Hmax); [done..|].
  by exists k.
Qed.

End Selector.

(** ** Claims about the action selector *)

(** C2. The selector at the row [[0, 0.1, 0, 0]], the row of a state after
    one rewarded update: the row has its strict maximum at index [1], which
    [np.argmax] finds, but with [epsilon = 0] the selector returns the
    action that [env.action_space.sample()] draws (here [3]), because the
    guard [np.all(row) == row[0]] compares [False] with [0.0]. *)
Theorem greedy_epsilon_zero_first_entry :
  let row := [F64.zero; F64.lit_0_1; F64.zero; F64.zero] in
  let st := PyState [row] (Stub [] [] [3] [F64.lit_0_9]) [] in
  first_maximum row 1 /\
  (forall k x, k <> 1%nat -> row !! k = Some x -> (x <? F64.lit_0_1)%f64 = true) /\
  np_argmax row = Ok 1 /\
  fst (greedy_epsilon (E := stub_env 1 4) F64.zero 0 st) = Ok 3.
Proof.
  cbv zeta. split; [|split; [|split]].
  - apply (np_argmax_Ok _ 1). reflexivity.
  - intros k x Hk Hx.
    destruct k as [|[|[|[|k]]]]; try done; cbn in Hx; by injection Hx as <-.
  - reflexivity.
  - reflexivity.
Qed.

(** C3, as stated, fails on a row whose entries are all [0.5]: the
    exploiting branch returns action [0] and leaves the sampler untouched,
    although the sampler would have drawn action [2]. *)
Lemma exploit_equal_row_counterexample :
  let row := [F64.half; F64.half; F64.half; F64.half] in
  let st := PyState [row] (Stub [] [] [2] []) [] in
  Forall (fun x => x = F64.half) row /\
  exploit (E := stub_env 1 4) 0 st = (Ok 0, st) /\
  call (action_space_sample (Env := stub_env 1 4)) st
    = (Ok 2, PyState [row] (Stub [] [] [] []) []).
Proof.
  cbv zeta. split; [by repeat constructor|]. split; reflexivity.
Qed.

(** C3, amended. On a state whose row holds only zeros, the exploiting
    branch returns the action that [env.action_space.sample()] draws (and
    not the index [0] that [np.argmax] would give). *)
Theorem exploit_zero_row {W : Type} {E : Env W} (st : pystate W) (s : Z)
    (row : list float) :
  getrow (qtable st) s = Ok row ->
  row <> [] ->
  Forall (fun x => (x == F64.zero)%f64 = true) row ->
  exploit s st = call action_space_sample st.
Proof.
  intros Hrow Hne Hzero.
  destruct row as [|x0 row]; [done|].
  apply Forall_cons in Hzero as [Hx0 _].
  by apply (exploit_first_entry_zero s st (x0 :: row) x0).
Qed.

Lemma exploit_zero_row_witness :
  exploit (E := stub_env 1 4) 0 (PyState (np_zeros 1 4) (Stub [] [] [2] []) [])
  = (Ok 2, PyState (np_zeros 1 4) (Stub [] [] [] []) []).
Proof.
  rewrite (exploit_zero_row (E := stub_env 1 4) _ 0
             [F64.zero; F64.zero; F64.zero; F64.zero]).
  - reflexivity.
  - reflexivity.
  - discriminate.
  - by repeat constructor.
Defined.

(** ** Replaying one transition *)

Section SelfLoop.

Import F64Order.

Lemma position_Some (q : ndarray) i j ki kj :
  position q i j = Some (ki, kj) <->
  np_index (length q) i = Some ki /\
  exists row, q !! ki = Some row /\ np_index (length row) j = Some kj.
Proof.
  unfold position. split.
  - destruct (np_index (length q) i) as [ki'|]; cbn; [|done].
    destruct (q !! ki') as [row|] eqn:Er; cbn; [|done].
    destruct (np_index (length row) j) as [kj'|] eqn:Ej; cbn; [|done].
    intros [= <- <-]. eauto.
  - intros (-> & row & Hr & Hj). cbn. rewrite Hr. cbn. by rewrite Hj.
Qed.

Lemma no_nan_below (row : list float) c :
  Forall (fun x => (x <=? c)%f64 = true) row -> existsb F64.is_nan row = false.
Proof.
  intros Hall. apply not_true_is_false. intros (x & Hx & Hn)%existsb_exists.
  rewrite Forall_forall in Hall.
  apply list_elem_of_In, Hall, leb_not_nan_l in Hx. congruence.
Qed.

(** Raising one entry above all the others makes it the first maximum. *)
Lemma first_maximum_insert (row : list float) kj c v :
  (kj < length row)%nat ->
  Forall (fun x => (x <=? c)%f64 = true) row ->
  (c <? v)%f64 = true ->
  first_maximum (<[kj := v]> row) kj.
Proof.
  intros Hkj Hall Hv. rewrite Forall_forall in Hall.
  pose proof (ltb_leb _ _ Hv) as Hcv.
  destruct (leb_not_nan _ _ Hcv) as [_ Hvn].
  assert (Hle : forall x, x ∈ <[kj := v]> row -> (x <=? v)%f64 = true).
  { intros x (k & Hk)%list_elem_of_lookup_1.
    destruct (decide (kj = k)) as [<-|Hne].
    - rewrite list_lookup_insert_eq in Hk by done. injection Hk as <-.
      by apply leb_refl.
    - rewrite list_lookup_insert_ne in Hk by done.
      eapply leb_trans; [|done]. eapply Hall, list_elem_of_lookup_2, Hk. }
  exists v. split; [by apply list_lookup_insert_eq|]. split.
  - split; [eapply list_elem_of_lookup_2; by apply list_lookup_insert_eq|].
    replace (existsb F64.is_nan (<[kj := v]> row)) with false; [done|].
    symmetry. apply (no_nan_below _ v). by apply Forall_forall.
  - intros k' x Hk Hx. rewrite list_lookup_insert_ne in Hx by lia.
    apply list_elem_of_lookup_2, Hall in Hx.
    split; [by eapply leb_not_nan_l|].
    destruct (v <=? x)%f64 eqn:Hvx; [|done].
    pose proof (ltb_not_leb _ _ Hv) as Hn.
    rewrite (leb_trans _ _ _ Hvx Hx) in Hn. done.
Qed.

Lemma np_argmax_insert (row : list float) kj c v :
  (kj < length row)%nat ->
  Forall (fun x => (x <=? c)%f64 = true) row ->
  (c <? v)%f64 = true ->
  np_argmax (<[kj := v]> row) = Ok (Z.of_nat kj).
Proof.
  intros Hkj Hall Hv.
  assert (Hne : <[kj := v]> row <> []).
  { intros Hnil. apply (f_equal length) in Hnil.
    rewrite length_insert in Hnil. cbn in Hnil. lia. }
  destruct (np_argmax_spec _ Hne) as (k & Hk & Hmax).
  rewrite Hk. do 2 f_equal.
  eapply first_maximum_unique; [done|]. by eapply first_maximum_insert.
Qed.

Variables alpha gamma r : float.

(** One more replay, once the entry is positive and the rest of its row is
    not. *)
Lemma q_update_self_loop (q : ndarray) s a ki kj rowS v :
  position q s a = Some (ki, kj) ->
  q !! ki = Some rowS ->
  Forall (fun x => (x <=? F64.zero)%f64 = true) rowS ->
  (F64.zero <? v)%f64 = true ->
  q_update alpha gamma (<[ki := <[kj := v]> rowS]> q) s a r s
  = Ok (<[ki := <[kj := td_value alpha gamma v r v]> rowS]> q).
Proof.
  intros Hpos HrowS Hall Hv.
  pose proof Hpos as (Hi & row & Hrow & Hj)%position_Some.
  rewrite HrowS in Hrow. injection Hrow as <-.
  assert (Hki : (ki < length q)%nat) by (eapply lookup_lt_Some, HrowS).
  assert (Hkj : (kj < length rowS)%nat) by (eapply np_index_lt, Hj).
  rewrite (q_update_eval alpha gamma _ s a r s (<[kj := v]> rowS) kj v ki kj
             (<[kj := v]> rowS) v).
  - by rewrite !list_insert_insert_eq.
  - apply getrow_Ok. exists ki. rewrite length_insert.
    split; [done|]. by apply list_lookup_insert_eq.
  - by eapply np_argmax_insert.
  - by apply list_lookup_insert_eq.
  - by rewrite position_insert.
  - by apply list_lookup_insert_eq.
  - by apply list_lookup_insert_eq.
Qed.

Lemma replay_self_loop (q : ndarray) s a ki kj rowS :
  position q s a = Some (ki, kj) ->
  q !! ki = Some rowS ->
  Forall (fun x => (x <=? F64.zero)%f64 = true) rowS ->
  forall n v,
    all_positive alpha gamma r n v = true ->
    replay alpha gamma s a r s n (<[ki := <[kj := v]> rowS]> q)
    = Ok (<[ki := <[kj := self_loop_value alpha gamma r n v]> rowS]> q).
Proof.
  intros Hpos HrowS Hall n.
  induction n as [|n IH]; intros v Hv; [done|].
  cbn in Hv. apply andb_prop in Hv as [Hv Hrest].
  cbn [replay self_loop_value].
  rewrite (q_update_self_loop q s a ki kj rowS v) by done.
  cbn [obind]. by apply IH.
Qed.

Lemma replay_S (q : ndarray) s a s' n :
  replay alpha gamma s a r s' (S n) q
  = (let? q1 := q_update alpha gamma q s a r s' in
     replay alpha gamma s a r s' n q1).
Proof. reflexivity. Qed.

(** The first replay, from an entry that is zero and greatest in its row:
    the greatest value of the row is a zero, of either sign. *)
Lemma q_update_first (q : ndarray) s a ki kj rowS :
  position q s a = Some (ki, kj) ->
  q !! ki = Some rowS ->
  rowS !! kj = Some F64.zero ->
  Forall (fun x => (x <=? F64.zero)%f64 = true) rowS ->
  exists sgn,
    q_update alpha gamma q s a r s
    = Ok (<[ki := <[kj := td_value alpha gamma F64.zero r (S754_zero sgn)]> rowS]> q).
Proof.
  intros Hpos HrowS Hold Hall.
  pose proof Hpos as (Hi & _)%position_Some.
  assert (Hne : rowS <> []) by (intros ->; done).
  destruct (np_argmax_spec rowS Hne) as (k & Hk & (m & Hm & [Hin Hmax] & _)).
  rewrite (no_nan_below _ _ Hall) in Hmax.
  assert (Hm0 : exists sgn, m = S754_zero sgn).
  { rewrite Forall_forall in Hall. specialize (Hall m Hin).
    specialize (Hmax F64.zero (list_elem_of_lookup_2 _ _ _ Hold)).
    destruct m as [sgn|[]| |[] mm em]; try done. eauto. }
  destruct Hm0 as [sgn ->]. exists sgn.
  eapply q_update_eval; try done. apply getrow_Ok. eauto.
Qed.

End SelfLoop.

(** C4. From an entry that is zero and greatest in its row, 1000 replays
    of the self-loop transition with [alpha = 0.1], [gamma = 0.9] and
    [r = 1] all succeed and leave a value within [1e-3] of [10.0]. *)
Theorem replay_converges (q : ndarray) (s a : Z) (row : list float) :
  getrow q s = Ok row ->
  getitem q s a = Ok F64.zero ->
  Forall (fun x => (x <=? F64.zero)%f64 = true) row ->
  exists q' v,
    replay F64.lit_0_1 F64.lit_0_9 s a F64.one s 1000 q = Ok q' /\
    getitem q' s a = Ok v /\
    (F64.abs (v - F64.ten) <? F64.lit_1e_3)%f64 = true.
Proof.
  intros Hrow Hold Hall.
  apply getitem_Ok in Hold as (ki & kj & Hpos & Hent).
  pose proof Hpos as (Hi & rowS & HrowS & Hj)%position_Some.
  apply getrow_Ok in Hrow as (ki' & Hi' & Hrow).
  rewrite Hi in Hi'. injection Hi' as <-.
  rewrite HrowS in Hrow. injection Hrow as <-.
  unfold entry in Hent. rewrite HrowS in Hent. cbn in Hent.
  destruct (q_update_first F64.lit_0_1 F64.lit_0_9 F64.one q s a ki kj rowS)
    as [sgn Hfirst]; [done..|].
  assert (Hv1 : td_value F64.lit_0_1 F64.lit_0_9 F64.zero F64.one (S754_zero sgn)
                = F64.lit_0_1) by (by destruct sgn).
  rewrite Hv1 in Hfirst.
  eexists. exists (self_loop_value F64.lit_0_1 F64.lit_0_9 F64.one 999 F64.lit_0_1).
  split; [|split].
  - rewrite (replay_S _ _ _ _ _ _ _ 999), Hfirst. cbn [obind].
    apply (replay_self_loop _ _ _ q s a ki kj rowS); [done..|].
    vm_compute. reflexivity.
  - apply getitem_Ok. exists ki, kj. split; [by rewrite position_insert|].
    apply entry_insert_eq; [done|]. eapply np_index_lt, Hj.
  - vm_compute. reflexivity.
Qed.

Lemma replay_converges_witness :
  exists q' v,
    replay F64.lit_0_1 F64.lit_0_9 5 2 F64.one 5 1000 (np_zeros 16 4) = Ok q' /\
    getitem q' 5 2 = Ok v /\
    (F64.abs (v - F64.ten) <? F64.lit_1e_3)%f64 = true.
Proof.
  apply (replay_converges (np_zeros 16 4) 5 2
           [F64.zero; F64.zero; F64.zero; F64.zero]).
  - reflexivity.
  - reflexivity.
  - by repeat constructor.
Defined.

(** ** Reasoning about computations *)

Section Computations.

Context {W : Type}.

Lemma bind_Ok {A B : Type} (c : M W A) (k : A -> M W B) st b st' :
  bind c k st = (Ok b, st') <->
  exists a st1, c st = (Ok a, st1) /\ k a st1 = (Ok b, st').
Proof.
  unfold bind. split.
  - destruct (c st) as [[a|e|] st1]; [eauto|done|done].
  - intros (a & st1 & -> & Hk). done.
Qed.

Lemma bind_Raise_l {A B : Type} (c : M W A) (k : A -> M W B) st e st' :
  c st = (Raise e, st') -> bind c k st = (Raise e, st').
Proof. unfold bind. by intros ->. Qed.

Lemma bind_step {A B : Type} (c : M W A) (k : A -> M W B) st a st1 :
  c st = (Ok a, st1) -> bind c k st = k a st1.
Proof. unfold bind. by intros ->. Qed.

Section Keeps.

Context {X : Type} (proj : pystate W -> X).

Lemma keeps_ret {A : Type} (a : A) : keeps proj (ret a).
Proof. done. Qed.

Lemma keeps_lift {A : Type} (o : outcome A) : keeps proj (lift o).
Proof. done. Qed.

Lemma keeps_out_of_fuel {A : Type} : keeps proj (A := A) out_of_fuel.
Proof. done. Qed.

Lemma keeps_get_qtable : keeps proj get_qtable.
Proof. done. Qed.

Lemma keeps_bind {A B : Type} (c : M W A) (k : A -> M W B) :
  keeps proj c -> (forall a, keeps proj (k a)) -> keeps proj (bind c k).
Proof.
  intros Hc Hk st. unfold bind. specialize (Hc st).
  destruct (c st) as [[a|e|] st1]; cbn in Hc |- *; [|done..].
  by rewrite Hk.
Qed.

Lemma keeps_while (body : locals -> M W locals) :
  (forall l, keeps proj (body l)) ->
  forall fuel l, keeps proj (while_not_done body fuel l).
Proof.
  intros Hbody fuel. induction fuel as [|fuel IH]; intros l; cbn;
    destruct (done l); try apply keeps_ret.
  - apply keeps_out_of_fuel.
  - by apply keeps_bind.
Qed.

End Keeps.

Lemma reads_only_print (ln : line) : reads_only (print ln : M W unit).
Proof. done. Qed.

Lemma reads_only_call {A : Type} (f : W -> A * W) : reads_only (call f).
Proof. intros st. unfold call. by destruct (f (world st)). Qed.

Lemma silent_call {A : Type} (f : W -> A * W) : silent (call f).
Proof. intros st. unfold call. by destruct (f (world st)). Qed.

Lemma silent_set_qtable (q : ndarray) : silent (set_qtable q : M W unit).
Proof. done. Qed.

(** A loop that returns has made its passes and found [done] true. *)
Lemma while_not_done_Ok (body : locals -> M W locals) fuel :
  forall l st l' st',
    while_not_done body fuel l st = (Ok l', st') ->
    passes body l st l' st' /\ done l' = true.
Proof.
  induction fuel as [|fuel IH]; intros l st l' st'; cbn;
    destruct (done l) eqn:Hd.
  - intros [= <- <-]. split; [constructor|done].
  - done.
  - intros [= <- <-]. split; [constructor|done].
  - intros (l1 & st1 & Hb & Hw)%bind_Ok.
    destruct (IH _ _ _ _ Hw) as [Hp Hd']. split; [|done].
    by eapply passes_more.
Qed.

(** Conversely, passes that end with [done] true are what the loop does,
    given fuel for them. *)
Lemma passes_while (body : locals -> M W locals) l st l' st' :
  passes body l st l' st' -> done l' = true ->
  exists fuel, while_not_done body fuel l st = (Ok l', st').
Proof.
  induction 1 as [l st|l st l1 st1 l' st' Hd Hb _ IH]; intros Hd'.
  - exists 0%nat. cbn. by rewrite Hd'.
  - destruct (IH Hd') as [fuel Hw]. exists (S fuel). cbn. rewrite Hd.
    by rewrite (bind_step _ _ _ _ _ Hb).
Qed.

(** More fuel does not change what a loop returns. *)
Lemma while_not_done_fuel (body : locals -> M W locals) fuel :
  forall l st l' st',
    while_not_done body fuel l st = (Ok l', st') ->
    forall fuel', (fuel <= fuel')%nat ->
      while_not_done body fuel' l st = (Ok l', st').
Proof.
  induction fuel as [|fuel IH]; intros l st l' st' Hw fuel' Hle.
  - cbn in Hw. destruct (done l) eqn:Hd; [|done].
    destruct fuel'; cbn; by rewrite Hd.
  - destruct fuel' as [|fuel']; [lia|]. cbn in Hw |- *.
    destruct (done l); [done|].
    apply bind_Ok in Hw as (l1 & st1 & Hb & Hw).
    rewrite (bind_step _ _ _ _ _ Hb). apply (IH _ _ _ _ Hw). lia.
Qed.

End Computations.

Create HintDb keeps discriminated.
#[global] Hint Resolve keeps_ret keeps_lift keeps_out_of_fuel keeps_get_qtable
  keeps_while reads_only_print reads_only_call silent_call silent_set_qtable
  : keeps.

(** Preservation goals follow the shape of the computation: a [bind]
    splits, a conditional is taken both ways, the leaves are in the
    database. *)
Ltac keeps_tac :=
  repeat first
    [ apply keeps_bind; [|intros ?]
    | match goal with |- keeps _ (if ?b then _ else _) => destruct b end
    | progress unfold train_while, eval_while
    | solve [auto with keeps] ].

(** ** The loops *)

Section Loops.

Context {W : Type} {E : Env W}.
Variables alpha gamma epsilon : float.
Variable num_episodes : nat.
Variable np_mean : list float -> float.

Lemma call_Ok {A : Type} (f : W -> A * W) (st : pystate W) a st' :
  call f st = (Ok a, st') <->
  a = fst (f (world st)) /\
  st' = PyState (qtable st) (snd (f (world st))) (stdout st).
Proof.
  unfold call. destruct (f (world st)) as [a0 w]. cbn.
  split; [by intros [= <- <-] | by intros [-> ->]].
Qed.

Lemma lift_Ok {A : Type} (o : outcome A) (st : pystate W) a st' :
  lift o st = (Ok a, st') <-> o = Ok a /\ st' = st.
Proof. unfold lift. split; [by intros [= -> ->] | by intros [-> ->]]. Qed.

Lemma greedy_epsilon_reads_only s : reads_only (greedy_epsilon epsilon s).
Proof. unfold greedy_epsilon, exploit. keeps_tac. Qed.

Lemma episode_start_reads_only : reads_only episode_start.
Proof. unfold episode_start. keeps_tac. Qed.

Lemma eval_body_reads_only l : reads_only (eval_body l).
Proof. unfold eval_body. keeps_tac. Qed.

Lemma eval_for_reads_only fuel n :
  forall k rewards steps, reads_only (eval_for fuel n k rewards steps).
Proof.
  pose proof eval_body_reads_only.
  induction n as [|n IH]; intros k rewards steps; cbn [eval_for]; keeps_tac.
Qed.

Lemma train_finish_Ok l a sr (st : pystate W) l' st' :
  train_finish alpha gamma l a sr st = (Ok l', st') <->
  exists q',
    q_update alpha gamma (qtable st) (state l) a (reward sr) (new_state sr) = Ok q' /\
    st' = PyState q' (world st) (stdout st) /\
    l' = {| state := new_state sr;
            done := terminated sr || truncated sr;
            episode_rewards := (episode_rewards l + reward sr)%f64;
            episode_steps := S (episode_steps l) |}.
Proof.
  unfold train_finish, bind, get_qtable, lift, set_qtable, ret.
  destruct (q_update alpha gamma (qtable st) (state l) a (reward sr) (new_state sr))
    as [q'| |]; cbn.
  - split; [intros [= <- <-]; eauto | by intros (? & [= <-] & -> & ->)].
  - split; [done | by intros (? & ? & _)].
  - split; [done | by intros (? & ? & _)].
Qed.

(** A failed update raises, and the state stays as it was. *)
Lemma train_finish_Raise l a sr (st : pystate W) e :
  q_update alpha gamma (qtable st) (state l) a (reward sr) (new_state sr) = Raise e ->
  train_finish alpha gamma l a sr st = (Raise e, st).
Proof.
  intros Hq. unfold train_finish, bind, get_qtable, lift. by rewrite Hq.
Qed.

Lemma train_body_Ok l st l' st' :
  train_body alpha gamma epsilon l st = (Ok l', st') <->
  exists a st1 sr w' q',
    greedy_epsilon epsilon (state l) st = (Ok a, st1) /\
    env_step a (world st1) = (sr, w') /\
    q_update alpha gamma (qtable st1) (state l) a (reward sr) (new_state sr) = Ok q' /\
    st' = PyState q' w' (stdout st1) /\
    l' = {| state := new_state sr;
            done := terminated sr || truncated sr;
            episode_rewards := (episode_rewards l + reward sr)%f64;
            episode_steps := S (episode_steps l) |}.
Proof.
  unfold train_body. rewrite bind_Ok. split.
  - intros (a & st1 & Hg & (sr & st2 & [-> ->]%call_Ok & Hf)%bind_Ok).
    apply train_finish_Ok in Hf as (q' & Hq & -> & ->). cbn in Hq |- *.
    exists a, st1, (env_step a (world st1)).1, (env_step a (world st1)).2, q'.
    split; [done|]. split; [by destruct (env_step a (world st1))|]. done.
  - intros (a & st1 & sr & w' & q' & Hg & Hs & Hq & -> & ->).
    exists a, st1. split; [done|]. apply bind_Ok.
    exists sr, (PyState (qtable st1) w' (stdout st1)). split.
    + apply call_Ok. by rewrite Hs.
    + apply train_finish_Ok. exists q'. done.
Qed.

Lemma eval_body_Ok l st l' st' :
  eval_body l st = (Ok l', st') <->
  exists row a sr w',
    getrow (qtable st) (state l) = Ok row /\
    np_argmax row = Ok a /\
    env_step a (world st) = (sr, w') /\
    st' = PyState (qtable st) w' (stdout st) /\
    l' = {| state := new_state sr;
            done := terminated sr || truncated sr;
            episode_rewards := (episode_rewards l + reward sr)%f64;
            episode_steps := S (episode_steps l) |}.
Proof.
  unfold eval_body. split.
  - intros (q & st1 & [= <- <-] &
            (row & st2 & [Hrow ->]%lift_Ok &
             (a & st3 & [Ha ->]%lift_Ok &
              (sr & st4 & [-> ->]%call_Ok & [= <- <-])%bind_Ok)%bind_Ok)%bind_Ok)%bind_Ok.
    exists row, a, (env_step a (world st)).1, (env_step a (world st)).2.
    split; [done|]. split; [done|]. split; [|done].
    by destruct (env_step a (world st)).
  - intros (row & a & sr & w' & Hrow & Ha & Hs & -> & ->).
    unfold bind, get_qtable, lift, call, ret. rewrite Hrow, Ha. cbn.
    by rewrite Hs.
Qed.

Lemma episode_start_Ok st l st' :
  episode_start st = (Ok l, st') <->
  l = {| state := fst (env_reset (world st)); done := false;
         episode_rewards := F64.zero; episode_steps := 0 |} /\
  st' = PyState (qtable st) (snd (env_reset (world st))) (stdout st).
Proof.
  unfold episode_start, bind, ret, call.
  destruct (env_reset (world st)) as [s w]. cbn.
  split; [by intros [= <- <-] | by intros [-> ->]].
Qed.

End Loops.

(** ** Claims about the loops *)

(** C7. Whatever the array, the number of trials, the fuel and the world,
    and whether [evaluation] returns, raises or is still running, the array
    it leaves is the array it was given. *)
Theorem evaluation_reads_only {W : Type} {E : Env W}
    (np_mean : list float -> float) (fuel num_trials : nat) (st : pystate W) :
  qtable (snd (evaluation np_mean fuel num_trials st)) = qtable st.
Proof.
  revert st. change (reads_only (evaluation np_mean fuel num_trials)).
  unfold evaluation.
  apply keeps_bind; [apply eval_for_reads_only|]. intros res.
  apply keeps_bind; [apply reads_only_print|]. intros _.
  apply keeps_bind; [apply reads_only_print|]. intros _.
  apply keeps_bind; [apply keeps_lift|]. intros mx.
  apply keeps_bind; [apply reads_only_print|]. intros _.
  apply keeps_bind; [apply keeps_lift|]. intros rate.
  apply reads_only_print.
Qed.

(** C6. In both loops [done] is false when an episode starts; after a pass
    through the body it is [terminated or truncated] of the step that the
    pass made; and a loop that returns went through passes that each began
    with [done] false, and ended with [done] true. *)
Theorem done_flag {W : Type} {E : Env W} (alpha gamma epsilon : float) :
  (forall (st : pystate W) l st',
     episode_start st = (Ok l, st') -> done l = false) /\
  (forall l (st : pystate W) l' st',
     train_body alpha gamma epsilon l st = (Ok l', st') ->
     exists a st1 sr w',
       greedy_epsilon epsilon (state l) st = (Ok a, st1) /\
       env_step a (world st1) = (sr, w') /\
       done l' = terminated sr || truncated sr) /\
  (forall l (st : pystate W) l' st',
     eval_body l st = (Ok l', st') ->
     exists row a sr w',
       getrow (qtable st) (state l) = Ok row /\
       np_argmax row = Ok a /\
       env_step a (world st) = (sr, w') /\
       done l' = terminated sr || truncated sr) /\
  (forall fuel l (st : pystate W) l' st',
     train_while alpha gamma epsilon fuel l st = (Ok l', st') ->
     passes (train_body alpha gamma epsilon) l st l' st' /\ done l' = true) /\
  (forall fuel l (st : pystate W) l' st',
     eval_while fuel l st = (Ok l', st') ->
     passes eval_body l st l' st' /\ done l' = true).
Proof.
  split; [|split; [|split; [|split]]].
  - by intros st l st' [-> _]%episode_start_Ok.
  - intros l st l' st'
      (a & st1 & sr & w' & q' & Hg & Hs & _ & _ & ->)%train_body_Ok.
    by exists a, st1, sr, w'.
  - intros l st l' st' (row & a & sr & w' & Hrow & Ha & Hs & _ & ->)%eval_body_Ok.
    by exists row, a, sr, w'.
  - intros fuel l st l' st'. apply while_not_done_Ok.
  - intros fuel l st l' st'. apply while_not_done_Ok.
Qed.

Lemma done_flag_witness :
  let w := Stub [] [StepResult 1 F64.zero false false;
                    StepResult 2 F64.one false true] [] [] in
  let l0 := Locals 0 false F64.zero 0 in
  let l2 := Locals 2 true F64.one 2 in
  eval_while (E := stub_env 3 2) 5 l0 (PyState (np_zeros 3 2) w [])
    = (Ok l2, PyState (np_zeros 3 2) (Stub [] [] [] []) []) /\
  passes (eval_body (E := stub_env 3 2)) l0 (PyState (np_zeros 3 2) w [])
    l2 (PyState (np_zeros 3 2) (Stub [] [] [] []) []) /\
  done l2 = true.
Proof.
  cbv zeta. split; [reflexivity|].
  apply (proj2 (proj2 (proj2 (proj2
           (done_flag (E := stub_env 3 2) F64.zero F64.zero F64.zero)))) 5%nat).
  reflexivity.
Defined.

(** ** The statistics *)

Section Statistics.

Context {W : Type} {E : Env W}.
Variables alpha gamma epsilon : float.
Variable num_episodes : nat.
Variable np_mean : list float -> float.

Lemma print_Ok (ln : line) (st : pystate W) u st' :
  print ln st = (Ok u, st') <->
  st' = PyState (qtable st) (world st) (stdout st ++ [ln]).
Proof.
  unfold print. destruct u. split; [by intros [= <-] | by intros ->].
Qed.

Lemma successes_app r1 r2 : successes (r1 ++ r2) = (successes r1 + successes r2)%nat.
Proof. unfold successes. by rewrite List.filter_app, length_app. Qed.

Lemma count_success_successes k x :
  count_success k x = (k + successes [x])%nat.
Proof.
  unfold count_success, successes. cbn.
  destruct (x == F64.one)%f64; cbn; lia.
Qed.

Lemma greedy_epsilon_silent s : silent (greedy_epsilon epsilon s).
Proof. unfold greedy_epsilon, exploit. keeps_tac. Qed.

Lemma train_body_silent l : silent (train_body alpha gamma epsilon l).
Proof. unfold train_body, train_finish. keeps_tac. Qed.

Lemma episode_start_silent : silent episode_start.
Proof. unfold episode_start. keeps_tac. Qed.


Lemma train_for_silent fuel n :
  forall rewards steps,
    silent (train_for alpha gamma epsilon fuel n rewards steps).
Proof.
  pose proof train_body_silent.
  induction n as [|n IH]; intros rewards steps; cbn [train_for]; keeps_tac.
Qed.

Lemma train_episodes_silent fuel :
  silent (train_episodes alpha gamma epsilon num_episodes fuel).
Proof.
  pose proof train_for_silent. unfold train_episodes. keeps_tac.
Qed.


(** The lists grow by one element per episode. *)
Lemma train_for_Ok fuel n :
  forall rewards steps (st : pystate W) rewards' steps' st',
    train_for alpha gamma epsilon fuel n rewards steps st
      = (Ok (rewards', steps'), st') ->
    exists new_r new_s,
      rewards' = rewards ++ new_r /\ steps' = steps ++ new_s /\
      length new_r = n /\ length new_s = n.
Proof.
  induction n as [|n IH]; intros rewards steps st rewards' steps' st';
    cbn [train_for].
  - intros [= <- <- <-]. exists [], []. by rewrite !app_nil_r.
  - intros (l0 & st1 & _ & (l & st2 & _ & Hfor)%bind_Ok)%bind_Ok.
    apply IH in Hfor as (new_r & new_s & -> & -> & Hr & Hs).
    exists (episode_rewards l :: new_r), (episode_steps l :: new_s).
    rewrite <- !app_assoc. cbn. by rewrite Hr, Hs.
Qed.


(** The fuel only bounds the length of an episode: a run that completes
    with some fuel completes in the same way with more. *)
Lemma train_for_fuel fuel fuel' n :
  (fuel <= fuel')%nat ->
  forall rewards steps (st : pystate W) res st',
    train_for alpha gamma epsilon fuel n rewards steps st = (Ok res, st') ->
    train_for alpha gamma epsilon fuel' n rewards steps st = (Ok res, st').
Proof.
  intros Hle. induction n as [|n IH]; intros rewards steps st res st';
    cbn [train_for]; [done|].
  intros (l0 & st1 & Hstart & (l & st2 & Hw & Hfor)%bind_Ok)%bind_Ok.
  rewrite (bind_step _ _ _ _ _ Hstart).
  rewrite (bind_step _ _ _ _ _ (while_not_done_fuel _ _ _ _ _ _ Hw _ Hle)).
  by apply IH.
Qed.

Lemma run_env_fuel fuel fuel' (st : pystate W) q st' :
  (fuel <= fuel')%nat ->
  run_env alpha gamma epsilon num_episodes np_mean fuel st = (Ok q, st') ->
  run_env alpha gamma epsilon num_episodes np_mean fuel' st = (Ok q, st').
Proof.
  intros Hle. unfold run_env, train_episodes.
  intros (stats & st0 & (u & st1 & Hset & Hfor)%bind_Ok & Hrest)%bind_Ok.
  apply (train_for_fuel _ _ _ Hle) in Hfor.
  erewrite bind_step; [exact Hrest|].
  by rewrite (bind_step _ _ _ _ _ Hset).
Qed.

Lemma eval_for_fuel fuel fuel' n :
  (fuel <= fuel')%nat ->
  forall k rewards steps (st : pystate W) res st',
    eval_for fuel n k rewards steps st = (Ok res, st') ->
    eval_for fuel' n k rewards steps st = (Ok res, st').
Proof.
  intros Hle. induction n as [|n IH]; intros k rewards steps st res st';
    cbn [eval_for]; [done|].
  intros (l0 & st1 & Hstart & (l & st2 & Hw & Hfor)%bind_Ok)%bind_Ok.
  rewrite (bind_step _ _ _ _ _ Hstart).
  rewrite (bind_step _ _ _ _ _ (while_not_done_fuel _ _ _ _ _ _ Hw _ Hle)).
  by apply IH.
Qed.

Lemma evaluation_fuel fuel fuel' num_trials (st : pystate W) u st' :
  (fuel <= fuel')%nat ->
  evaluation np_mean fuel num_trials st = (Ok u, st') ->
  evaluation np_mean fuel' num_trials st = (Ok u, st').
Proof.
  intros Hle. unfold evaluation.
  intros (res & st0 & Hfor & Hrest)%bind_Ok.
  apply (eval_for_fuel _ _ _ Hle) in Hfor.
  by rewrite (bind_step _ _ _ _ _ Hfor).
Qed.

End Statistics.

(** ** Claims about what the loops report *)



(** C5, as stated, fails: two runs of two episodes, one with the episodes
    of [1] and [2] steps and one with the episodes of [2] and [1] steps,
    return the same array and print the same lines, whatever [np.mean]
    computes, so that the caller cannot tell the two lists of step counts
    apart. *)
Lemma run_env_hides_statistics :
  let hole := StepResult 1 F64.zero true false in
  let ice := StepResult 1 F64.zero false false in
  let st1 := PyState [] (Stub [0; 0] [hole; ice; hole] [] []) [] in
  let st2 := PyState [] (Stub [0; 0] [ice; hole; hole] [] []) [] in
  let train := train_episodes (E := stub_env 3 2)
                 F64.lit_0_1 F64.lit_0_99 F64.lit_0_1 2 10 in
  fst (train st1) = Ok ([F64.zero; F64.zero], [1%nat; 2%nat]) /\
  fst (train st2) = Ok ([F64.zero; F64.zero], [2%nat; 1%nat]) /\
  forall np_mean,
    let run := run_env (E := stub_env 3 2)
                 F64.lit_0_1 F64.lit_0_99 F64.lit_0_1 2 np_mean 10 in
    fst (run st1) = Ok (np_zeros 3 2) /\
    fst (run st2) = Ok (np_zeros 3 2) /\
    stdout (snd (run st1)) = stdout (snd (run st2)).
Proof.
  cbv zeta. split; [reflexivity|]. split; [reflexivity|].
  intros np_mean. split; [reflexivity|]. split; reflexivity.
Qed.

(** C5, amended. A run of [run_env] that completes returns the array,
    and only the array; the two lists, one entry per episode, stay inside:
    of them the run prints the mean reward and the greatest step count. *)
Theorem run_env_output {W : Type} {E : Env W} (alpha gamma epsilon : float)
    (num_episodes : nat) (np_mean : list float -> float) (fuel : nat)
    (st : pystate W) (q : ndarray) (st' : pystate W) :
  run_env alpha gamma epsilon num_episodes np_mean fuel st = (Ok q, st') ->
  exists rewards steps mx st0,
    train_episodes alpha gamma epsilon num_episodes fuel st
      = (Ok (rewards, steps), st0) /\
    length rewards = num_episodes /\
    length steps = num_episodes /\
    np_max steps = Ok mx /\
    q = qtable st0 /\
    st' = PyState (qtable st0) (world st0)
            (stdout st ++ [Msg "Episodes complete";
                           MeanReward (np_mean rewards); MaxSteps mx]).
Proof.
  unfold run_env.
  intros ([rewards steps] & st0 & Htrain &
          (u1 & st1 & ->%print_Ok &
           (u2 & st2 & ->%print_Ok &
            (mx & st3 & [Hmx ->]%lift_Ok &
             (u3 & st4 & ->%print_Ok & [= <- <-])%bind_Ok)%bind_Ok)%bind_Ok)%bind_Ok)%bind_Ok.
  cbn in Hmx |- *.
  pose proof (train_episodes_silent alpha gamma epsilon num_episodes fuel st) as Hout.
  rewrite Htrain in Hout. cbn in Hout.
  exists rewards, steps, mx, st0. split; [done|].
  unfold train_episodes in Htrain.
  apply bind_Ok in Htrain as (u & st00 & _ & Hfor).
  apply train_for_Ok in Hfor as (new_r & new_s & -> & -> & Hr & Hs).
  cbn. split; [done|]. split; [done|]. split; [done|]. split; [done|].
  rewrite Hout, <- !app_assoc. done.
Qed.

Lemma run_env_output_witness :
  let w := Stub [0] [StepResult 1 F64.zero false false;
                     StepResult 2 F64.one true false] [] [] in
  let q := [[F64.zero; F64.zero]; [F64.lit_0_1; F64.zero]; [F64.zero; F64.zero]] in
  let st := PyState [] w [] in
  let st' := PyState q (Stub [] [] [] [])
               [Msg "Episodes complete"; MeanReward F64.one; MaxSteps 2] in
  run_env (E := stub_env 3 2) F64.lit_0_1 F64.lit_0_99 F64.lit_0_1 1
    (fun _ => F64.one) 10 st = (Ok q, st') /\
  exists rewards steps mx st0,
    train_episodes (E := stub_env 3 2) F64.lit_0_1 F64.lit_0_99 F64.lit_0_1 1 10 st
      = (Ok (rewards, steps), st0) /\
    length rewards = 1%nat /\
    length steps = 1%nat /\
    np_max steps = Ok mx /\
    q = qtable st0 /\
    st' = PyState (qtable st0) (world st0)
            (stdout st ++ [Msg "Episodes complete"; MeanReward F64.one;
                           MaxSteps mx]).
Proof.
  cbv zeta. split; [vm_compute; reflexivity|].
  apply (run_env_output (E := stub_env 3 2)
           F64.lit_0_1 F64.lit_0_99 F64.lit_0_1 1 (fun _ => F64.one) 10).
  vm_compute. reflexivity.
Defined.

(** ** Indices out of range *)

Section OutOfRange.

Context {W : Type} {E : Env W}.
Variables alpha gamma epsilon : float.

Lemma loop_free_bind {A B : Type} (c : M W A) (k : A -> M W B) :
  loop_free c -> (forall a, loop_free (k a)) -> loop_free (bind c k).
Proof.
  intros Hc Hk st. unfold bind. specialize (Hc st).
  destruct (c st) as [[a|e|] st1]; cbn in Hc |- *; [apply Hk|done|done].
Qed.

Lemma loop_free_call {A : Type} (f : W -> A * W) : loop_free (call f).
Proof. intros st. unfold call. by destruct (f (world st)). Qed.

Lemma call_is_Ok {A : Type} (f : W -> A * W) (st : pystate W) :
  is_Ok (fst (call f st)) = true.
Proof. unfold call. by destruct (f (world st)). Qed.

Lemma loop_free_lift {A : Type} (o : outcome A) :
  o <> OutOfFuel -> loop_free (lift o : M W A).
Proof. by intros Ho st. Qed.

Lemma getrow_loop_free (q : ndarray) i : getrow q i <> OutOfFuel.
Proof.
  unfold getrow. destruct (np_index (length q) i) as [k|]; [|done].
  by destruct (q !! k).
Qed.

Lemma getitem_loop_free (q : ndarray) i j : getitem q i j <> OutOfFuel.
Proof.
  rewrite getitem_position. destruct (position q i j) as [[ki kj]|]; [|done].
  by destruct (entry q ki kj).
Qed.

Lemma np_argmax_loop_free row : np_argmax row <> OutOfFuel.
Proof. by destruct row. Qed.

Lemma setitem_loop_free (q : ndarray) i j v : setitem q i j v <> OutOfFuel.
Proof.
  rewrite setitem_position. destruct (position q i j) as [[ki kj]|]; [|done].
  by destruct (q !! ki).
Qed.

Lemma q_update_loop_free (q : ndarray) s a r s' :
  q_update alpha gamma q s a r s' <> OutOfFuel.
Proof.
  unfold q_update.
  pose proof (getrow_loop_free q s').
  destruct (getrow q s') as [row| |]; [|done..]. cbn [obind].
  pose proof (np_argmax_loop_free row).
  destruct (np_argmax row) as [k| |]; [|done..]. cbn [obind].
  pose proof (getitem_loop_free q s' k).
  destruct (getitem q s' k) as [m| |]; [|done..]. cbn [obind].
  pose proof (getitem_loop_free q s a).
  destruct (getitem q s a) as [old| |]; [|done..]. cbn [obind].
  apply setitem_loop_free.
Qed.

Ltac loop_free_tac :=
  repeat first
    [ apply loop_free_bind; [|intros ?]
    | match goal with |- loop_free (if ?b then _ else _) => destruct b end
    | apply loop_free_call
    | apply loop_free_lift;
      first [ apply getrow_loop_free | apply getitem_loop_free
            | apply np_argmax_loop_free | apply q_update_loop_free ]
    | done ].

Lemma greedy_epsilon_loop_free s : loop_free (greedy_epsilon epsilon s).
Proof. unfold greedy_epsilon, exploit. loop_free_tac. Qed.

Lemma train_body_loop_free l : loop_free (train_body alpha gamma epsilon l).
Proof. unfold train_body, train_finish. loop_free_tac. Qed.

(** A pass that does not complete leaves the array as it was. *)
Lemma train_body_failure_frame l (st : pystate W) :
  is_Ok (fst (train_body alpha gamma epsilon l st)) = false ->
  qtable (snd (train_body alpha gamma epsilon l st)) = qtable st.
Proof.
  unfold train_body.
  pose proof (greedy_epsilon_reads_only epsilon (state l) st) as Hgq.
  pose proof (greedy_epsilon_loop_free (state l) st) as Hgf.
  destruct (greedy_epsilon epsilon (state l) st) as [[a|e|] st1] eqn:Hg;
    cbn in Hgq, Hgf; [|by rewrite (bind_Raise_l _ _ _ _ _ Hg)|done].
  rewrite (bind_step _ _ _ _ _ Hg).
  pose proof (reads_only_call (env_step a) st1) as Hsq.
  pose proof (call_is_Ok (env_step a) st1) as Hsk.
  destruct (call (env_step a) st1) as [[sr|e|] st2] eqn:Hs; cbn in Hsq, Hsk;
    [|done..].
  rewrite (bind_step _ _ _ _ _ Hs).
  destruct (q_update alpha gamma (qtable st2) (state l) a (reward sr) (new_state sr))
    as [q'|e|] eqn:Hq.
  - unfold train_finish, bind, get_qtable, lift, set_qtable, ret.
    rewrite Hq. done.
  - rewrite (train_finish_Raise _ _ _ _ _ _ _ Hq). cbn. congruence.
  - by apply q_update_loop_free in Hq.
Qed.

(** In an array of shape [S x A], the index pairs that are accepted. *)
Lemma position_in_range (S A : nat) (q : ndarray) i j :
  has_shape S A q ->
  is_Some (position q i j) ->
  - Z.of_nat S <= i < Z.of_nat S /\ - Z.of_nat A <= j < Z.of_nat A.
Proof.
  intros [HS HA] [[ki kj] (Hi & row & Hrow & Hj)%position_Some].
  rewrite Forall_forall in HA.
  apply list_elem_of_lookup_2, HA in Hrow. subst S A.
  split; apply np_index_in_range; eauto.
Qed.

Lemma getrow_in_range (q : ndarray) i row :
  getrow q i = Ok row -> - Z.of_nat (length q) <= i < Z.of_nat (length q).
Proof.
  intros (ki & Hi & _)%getrow_Ok. apply np_index_in_range. eauto.
Qed.

End OutOfRange.

(** ** Claim about indices out of range *)

(** C9, as stated, fails on a negative index: in a run on a [2 x 2] array
    the environment answers the first step with the state [-1], which is
    not in [[0, 2)]; no error is raised, the update of that step reads the
    row at index [-1] (the last row) and the update of the next step writes
    into it. *)
Lemma train_negative_state_counterexample :
  let w := Stub [0] [StepResult (-1) F64.one false false;
                     StepResult 0 F64.zero true false] [] [] in
  let run := train_episodes (E := stub_env 2 2)
               F64.lit_0_1 F64.lit_0_99 F64.lit_0_1 1 10 (PyState [] w []) in
  ~ (0 <= -1 < 2) /\
  fst run = Ok ([F64.one], [2%nat]) /\
  qtable (snd run)
    = [[F64.lit_0_1; F64.zero];
       [S754_finite false 5706961447803893 (-59); F64.zero]].
Proof.
  cbv zeta. split; [lia|]. split; [reflexivity|]. vm_compute. reflexivity.
Qed.

(** C9, amended. On an array of shape [S x A], a pass of the training
    loop in which the current state or the state that the environment
    returns lies outside [[-S, S)], or the action lies outside [[-A, A)],
    raises an error; the array is left as it was, and the loop ends with
    that error. (Indices in [[-S, 0)] and [[-A, 0)] are accepted and count
    from the end.) *)
Theorem train_body_out_of_range {W : Type} {E : Env W}
    (alpha gamma epsilon : float) (S A : nat) (l : locals) (st : pystate W) :
  has_shape S A (qtable st) ->
  (~ (- Z.of_nat S <= state l < Z.of_nat S) \/
   exists a st1,
     greedy_epsilon epsilon (state l) st = (Ok a, st1) /\
     (~ (- Z.of_nat A <= a < Z.of_nat A) \/
      ~ (- Z.of_nat S <= new_state (fst (env_step a (world st1))) < Z.of_nat S))) ->
  exists e st',
    train_body alpha gamma epsilon l st = (Raise e, st') /\
    qtable st' = qtable st /\
    forall fuel,
      done l = false ->
      train_while alpha gamma epsilon (Datatypes.S fuel) l st = (Raise e, st').
Proof.
  intros Hshape Hout.
  pose proof (train_body_failure_frame alpha gamma epsilon l st) as Hframe.
  pose proof (train_body_loop_free alpha gamma epsilon l st) as Hfree.
  destruct (train_body alpha gamma epsilon l st) as [[l'|e|] st'] eqn:Hb;
    cbn in Hframe, Hfree; [exfalso| |done].
  - apply train_body_Ok in Hb
      as (a & st1 & sr & w' & q' & Hg & Hs & Hq & _ & _).
    pose proof (greedy_epsilon_reads_only epsilon (state l) st) as Hgq.
    rewrite Hg in Hgq. cbn in Hgq. rewrite Hgq in Hq.
    assert (Hok : is_Ok (q_update alpha gamma (qtable st) (state l) a
                           (reward sr) (new_state sr)) = true)
      by (by rewrite Hq).
    apply q_update_is_Ok_iff in Hok as [(row' & Hrow & _) Hpos].
    apply (position_in_range S A) in Hpos as [HS HA]; [|done].
    apply getrow_in_range in Hrow. destruct Hshape as [HlenS _].
    rewrite HlenS in Hrow.
    destruct Hout as [Hout|(a0 & st0 & Hg0 & Hout)]; [done|].
    rewrite Hg in Hg0. injection Hg0 as <- <-.
    rewrite Hs in Hout. cbn in Hout. tauto.
  - exists e, st'. split; [done|]. split; [by apply Hframe|].
    intros fuel Hd. unfold train_while. cbn [while_not_done]. rewrite Hd.
    by apply bind_Raise_l.
Qed.

Lemma train_body_out_of_range_witness :
  let w := Stub [] [StepResult 2 F64.one false false] [] [] in
  let st := PyState (np_zeros 2 2) w [] in
  let l := Locals 0 false F64.zero 0 in
  has_shape 2 2 (qtable st) /\
  ~ (-2 <= new_state (fst (stub_step 0 w)) < 2) /\
  exists e st',
    train_body (E := stub_env 2 2) F64.lit_0_1 F64.lit_0_99 F64.lit_0_1 l st
      = (Raise e, st') /\
    qtable st' = qtable st /\
    forall fuel,
      done l = false ->
      train_while (E := stub_env 2 2) F64.lit_0_1 F64.lit_0_99 F64.lit_0_1
        (S fuel) l st = (Raise e, st').
Proof.
  cbv zeta.
  assert (Hshape : has_shape 2 2 (np_zeros 2 2))
    by (split; [reflexivity | by repeat constructor]).
  split; [exact Hshape|]. split; [cbn; lia|].
  apply (train_body_out_of_range (E := stub_env 2 2)
           F64.lit_0_1 F64.lit_0_99 F64.lit_0_1 2 2); [exact Hshape|].
  right. exists 0, (PyState (np_zeros 2 2)
                      (Stub [] [StepResult 2 F64.one false false] [] []) []).
  split; [reflexivity|]. right. cbn. lia.
Defined.

(** ** Reasoning with pre- and postconditions *)

Section Triples.

Context {W : Type}.

Lemma triple_ret {A : Type} (P : pystate W -> Prop) (a : A) Q R :
  (forall st, P st -> Q a st) -> triple P (ret a) Q R.
Proof. intros HQ st HP. by apply HQ. Qed.

Lemma triple_bind {A B : Type} (P : pystate W -> Prop) (c : M W A)
    (k : A -> M W B) Q Q' R :
  triple P c Q R -> (forall a, triple (Q a) (k a) Q' R) ->
  triple P (bind c k) Q' R.
Proof.
  intros Hc Hk st HP. specialize (Hc st HP). unfold bind.
  destruct (c st) as [[a|e|] st1]; [by apply Hk|done..].
Qed.

Lemma triple_conseq {A : Type} (P P' : pystate W -> Prop) (c : M W A)
    (Q Q' : A -> pystate W -> Prop) (R R' : option exn -> pystate W -> Prop) :
  triple P' c Q' R' ->
  (forall st, P st -> P' st) ->
  (forall a st, Q' a st -> Q a st) ->
  (forall oe st, R' oe st -> R oe st) ->
  triple P c Q R.
Proof.
  intros Hc HP HQ HR st Hst. specialize (Hc st (HP st Hst)).
  destruct (c st) as [[a|e|] st1]; auto.
Qed.

(** A computation that keeps the array and cannot fail. *)
Lemma triple_call {A : Type} (f : W -> A * W) (P : pystate W -> Prop) Q R :
  (forall st, P st ->
     Q (fst (f (world st))) (PyState (qtable st) (snd (f (world st))) (stdout st))) ->
  triple P (call f) Q R.
Proof.
  intros HQ st HP. specialize (HQ st HP). unfold call.
  by destruct (f (world st)).
Qed.

Lemma triple_print (ln : line) (P : pystate W -> Prop) Q R :
  (forall st, P st -> Q tt (PyState (qtable st) (world st) (stdout st ++ [ln]))) ->
  triple P (print ln) Q R.
Proof. intros HQ st HP. by apply HQ. Qed.

(** The loop rule: an invariant [J] of the locals and the state that each
    pass keeps holds, with [done], when the loop returns. *)
Lemma triple_while (body : locals -> M W locals)
    (J : locals -> pystate W -> Prop) R :
  (forall l, triple (fun st => J l st /\ done l = false) (body l) J R) ->
  (forall l st, J l st -> R None st) ->
  forall fuel l,
    triple (J l) (while_not_done body fuel l)
      (fun l' st' => J l' st' /\ done l' = true) R.
Proof.
  intros Hbody Hfuel fuel.
  induction fuel as [|fuel IH]; intros l st HJ; cbn [while_not_done];
    destruct (done l) eqn:Hd.
  - by cbn.
  - cbn. by eapply Hfuel.
  - by cbn.
  - by apply (triple_bind (fun st => J l st /\ done l = false) _ _ J _ R
                (Hbody l) (IH)).
Qed.

End Triples.

(** ** Pre- and postconditions of the loops *)

Section LoopTriples.

Context {W : Type} {E : Env W}.
Variables alpha gamma epsilon : float.

Lemma triple_ext {A : Type} (P : pystate W -> Prop) (c c' : M W A) Q R :
  (forall st, c st = c' st) -> triple P c Q R -> triple P c' Q R.
Proof. intros Hext Hc st HP. rewrite <- Hext. by apply Hc. Qed.

Lemma bind_assoc {A B C : Type} (c : M W A) (k : A -> M W B) (k' : B -> M W C) st :
  bind (bind c k) k' st = bind c (fun a => bind (k a) k') st.
Proof. unfold bind. by destruct (c st) as [[a|e|] st1]. Qed.

(** A pass of the training loop: what holds when it completes follows
    from the update that it made; when it fails the array is as before. *)
Lemma train_body_triple l (P : pystate W -> Prop) Q R :
  (forall st a st1 sr w' q',
     P st ->
     greedy_epsilon epsilon (state l) st = (Ok a, st1) ->
     env_step a (world st1) = (sr, w') ->
     q_update alpha gamma (qtable st) (state l) a (reward sr) (new_state sr) = Ok q' ->
     Q {| state := new_state sr;
          done := terminated sr || truncated sr;
          episode_rewards := (episode_rewards l + reward sr)%f64;
          episode_steps := S (episode_steps l) |}
       (PyState q' w' (stdout st))) ->
  (forall st e st',
     P st -> train_body alpha gamma epsilon l st = (Raise e, st') ->
     qtable st' = qtable st -> R (Some e) st') ->
  triple P (train_body alpha gamma epsilon l) Q R.
Proof.
  intros Hok Hfail st HP.
  pose proof (train_body_failure_frame alpha gamma epsilon l st) as Hframe.
  pose proof (train_body_loop_free alpha gamma epsilon l st) as Hfree.
  destruct (train_body alpha gamma epsilon l st) as [[l'|e|] st'] eqn:Hb;
    cbn in Hframe, Hfree; [|by apply (Hfail st); auto|done].
  apply train_body_Ok in Hb
    as (a & st1 & sr & w' & q' & Hg & Hs & Hq & -> & ->).
  pose proof (greedy_epsilon_reads_only epsilon (state l) st) as Hgq.
  pose proof (greedy_epsilon_silent epsilon (state l) st) as Hgs.
  rewrite Hg in Hgq, Hgs. cbn in Hgq, Hgs. rewrite Hgq in Hq. rewrite Hgs.
  by eapply Hok.
Qed.

(** What a pass of the evaluation loop does, in one equation. *)
Lemma eval_body_unfold l (st : pystate W) :
  eval_body l st =
    match getrow (qtable st) (state l) with
    | Ok row =>
        match np_argmax row with
        | Ok a =>
            (Ok {| state := new_state (fst (env_step a (world st)));
                   done := terminated (fst (env_step a (world st)))
                           || truncated (fst (env_step a (world st)));
                   episode_rewards :=
                     (episode_rewards l + reward (fst (env_step a (world st))))%f64;
                   episode_steps := S (episode_steps l) |},
             PyState (qtable st) (snd (env_step a (world st))) (stdout st))
        | Raise e => (Raise e, st)
        | OutOfFuel => (OutOfFuel, st)
        end
    | Raise e => (Raise e, st)
    | OutOfFuel => (OutOfFuel, st)
    end.
Proof.
  unfold eval_body, bind, get_qtable, lift, call, ret.
  destruct (getrow (qtable st) (state l)) as [row| |]; cbn; [|done..].
  destruct (np_argmax row) as [a| |]; cbn; [|done..].
  by destruct (env_step a (world st)).
Qed.

Lemma eval_body_triple l (P : pystate W -> Prop) Q R :
  (forall st row a,
     P st ->
     getrow (qtable st) (state l) = Ok row ->
     np_argmax row = Ok a ->
     Q {| state := new_state (fst (env_step a (world st)));
          done := terminated (fst (env_step a (world st)))
                  || truncated (fst (env_step a (world st)));
          episode_rewards :=
            (episode_rewards l + reward (fst (env_step a (world st))))%f64;
          episode_steps := S (episode_steps l) |}
       (PyState (qtable st) (snd (env_step a (world st))) (stdout st))) ->
  (forall st e,
     P st ->
     getrow (qtable st) (state l) = Raise e \/
     (exists row, getrow (qtable st) (state l) = Ok row /\ np_argmax row = Raise e) ->
     R (Some e) st) ->
  triple P (eval_body l) Q R.
Proof.
  intros Hok Hfail st HP. rewrite eval_body_unfold.
  pose proof (getrow_loop_free (qtable st) (state l)) as Hr.
  destruct (getrow (qtable st) (state l)) as [row|e|] eqn:Hrow;
    [|by apply Hfail; auto|done].
  pose proof (np_argmax_loop_free row) as Ha.
  destruct (np_argmax row) as [a|e|] eqn:Harg; [by apply (Hok st row a)| |done].
  apply Hfail; eauto.
Qed.

(** An episode: the reset establishes the invariant of the loop. *)
Lemma episode_triple (body : locals -> M W locals) (I : pystate W -> Prop)
    (J : locals -> pystate W -> Prop) (K : locals -> Prop) R fuel :
  (forall st, I st ->
     J {| state := fst (env_reset (world st)); done := false;
          episode_rewards := F64.zero; episode_steps := 0 |}
       (PyState (qtable st) (snd (env_reset (world st))) (stdout st))) ->
  (forall l, triple (fun st => J l st /\ done l = false) (body l) J R) ->
  (forall l st, J l st -> R None st) ->
  (forall l st, J l st -> done l = true -> I st /\ K l) ->
  triple I (bind episode_start (while_not_done body fuel))
    (fun l st => I st /\ K l) R.
Proof.
  intros Hreset Hbody Hfuel Hexit.
  apply (triple_bind _ _ _
           (fun l0 st => J l0 st)).
  - unfold episode_start.
    apply (triple_bind _ _ _
             (fun s st => J {| state := s; done := false;
                               episode_rewards := F64.zero; episode_steps := 0 |} st)).
    + apply triple_call. intros st HI. by apply Hreset.
    + intros s. by apply triple_ret.
  - intros l0.
    eapply triple_conseq; [by apply (triple_while body J R)|done| |done].
    intros l st [HJ Hd]. by apply Hexit.
Qed.

(** The [for] loops: one entry per episode, each from locals that
    satisfy [K]. *)
Lemma train_for_triple (I : pystate W -> Prop) (K : locals -> Prop) R fuel :
  triple I (bind episode_start (train_while alpha gamma epsilon fuel))
    (fun l st => I st /\ K l) R ->
  forall n rewards steps,
    triple I (train_for alpha gamma epsilon fuel n rewards steps)
      (fun res st =>
         I st /\
         exists ls, length ls = n /\ Forall K ls /\
           res = (rewards ++ map episode_rewards ls,
                  steps ++ map episode_steps ls)) R.
Proof.
  intros Hep. induction n as [|n IH]; intros rewards steps; cbn [train_for].
  - apply triple_ret. intros st HI. split; [done|]. exists [].
    by rewrite !app_nil_r.
  - eapply triple_ext; [intros st; apply bind_assoc|].
    eapply triple_bind; [exact Hep|]. intros l. cbn beta.
    intros st [HI HK].
    specialize (IH (rewards ++ [episode_rewards l]) (steps ++ [episode_steps l])
                  st HI).
    destruct (train_for _ _ _ _ _ _ _ st) as [[res|e|] st']; [|done..].
    destruct IH as [HI' (ls & Hlen & HKs & ->)]. split; [done|].
    exists (l :: ls). cbn. rewrite <- !app_assoc.
    split; [by rewrite Hlen|]. split; [by constructor|done].
Qed.

Lemma eval_for_triple (I : pystate W -> Prop) (K : locals -> Prop) R fuel :
  triple I (bind episode_start (eval_while fuel)) (fun l st => I st /\ K l) R ->
  forall n k rewards steps,
    triple I (eval_for fuel n k rewards steps)
      (fun res st =>
         I st /\
         exists ls, length ls = n /\ Forall K ls /\
           res = ((k + successes (map episode_rewards ls))%nat,
                  rewards ++ map episode_rewards ls,
                  steps ++ map episode_steps ls)) R.
Proof.
  intros Hep. induction n as [|n IH]; intros k rewards steps; cbn [eval_for].
  - apply triple_ret. intros st HI. split; [done|]. exists [].
    rewrite !app_nil_r. cbn. repeat split; try done. do 2 f_equal.
    unfold successes. cbn. lia.
  - eapply triple_ext; [intros st; apply bind_assoc|].
    eapply triple_bind; [exact Hep|]. intros l. cbn beta.
    intros st [HI HK].
    specialize (IH (count_success k (episode_rewards l))
                  (rewards ++ [episode_rewards l]) (steps ++ [episode_steps l])
                  st HI).
    destruct (eval_for _ _ _ _ _ st) as [[res|e|] st']; [|done..].
    destruct IH as [HI' (ls & Hlen & HKs & ->)]. split; [done|].
    exists (l :: ls). cbn [map length]. rewrite <- !app_assoc.
    split; [by rewrite Hlen|]. split; [by constructor|].
    rewrite count_success_successes.
    change (episode_rewards l :: map episode_rewards ls)
      with ([episode_rewards l] ++ map episode_rewards ls).
    rewrite successes_app. do 2 f_equal. lia.
Qed.

End LoopTriples.

(** ** Further properties of the update *)

Section UpdateFacts.

Variables alpha gamma : float.

Lemma getrow_Raise_iff (q : ndarray) i e :
  getrow q i = Raise e <-> e = IndexError /\ np_index (length q) i = None.
Proof.
  unfold getrow. destruct (np_index (length q) i) as [k|] eqn:Hi.
  - destruct (lookup_lt_is_Some_2 q k (np_index_lt _ _ _ Hi)) as [row ->].
    split; [done | by intros [_ ?]].
  - split; [by intros [= <-] | by intros [-> _]].
Qed.

Lemma np_argmax_Raise_iff row e :
  np_argmax row = Raise e <-> e = ValueError /\ row = [].
Proof.
  destruct row as [|x row]; cbn; [|split; [done | by intros [_ ?]]].
  split; [by intros [= <-] | by intros [-> _]].
Qed.

Lemma getitem_Raise_iff (q : ndarray) i j e :
  getitem q i j = Raise e <-> e = IndexError /\ position q i j = None.
Proof.
  rewrite getitem_position.
  destruct (position q i j) as [[ki kj]|] eqn:Hpos.
  - destruct (position_entry _ _ _ _ _ Hpos) as [x ->].
    split; [done | by intros [_ ?]].
  - split; [by intros [= <-] | by intros [-> _]].
Qed.

(** How an update ends, from what the array accepts. *)
Lemma q_update_outcome_cases (q : ndarray) s a r s' :
  match q_update alpha gamma q s a r s' with
  | Ok q' =>
      (exists row', getrow q s' = Ok row' /\ row' <> []) /\
      is_Some (position q s a)
  | Raise IndexError =>
      np_index (length q) s' = None \/
      ((exists row', getrow q s' = Ok row' /\ row' <> []) /\ position q s a = None)
  | Raise ValueError => getrow q s' = Ok []
  | Raise ZeroDivisionError => False
  | OutOfFuel => False
  end.
Proof.
  destruct (q_update alpha gamma q s a r s') as [q'|e|] eqn:Hq.
  - apply (proj1 (q_update_is_Ok_iff alpha gamma q s a r s')). by rewrite Hq.
  - unfold q_update in Hq.
    destruct (getrow q s') as [row'|e'|] eqn:Hrow; cbn [obind] in Hq.
    + destruct (np_argmax row') as [kb|e'|] eqn:Hk; cbn [obind] in Hq.
      * destruct (np_argmax_Ok _ _ Hk) as [Hkb (m & Hm & _)].
        assert (Hne : row' <> []) by (by intros ->).
        assert (Hnext : getitem q s' kb = Ok m).
        { unfold getitem. rewrite Hrow. cbn [obind].
          replace kb with (Z.of_nat (Z.to_nat kb)) by lia.
          rewrite np_index_nonneg by (eapply lookup_lt_Some, Hm).
          by rewrite Hm. }
        rewrite Hnext in Hq. cbn [obind] in Hq.
        assert (Hpos : e = IndexError /\ position q s a = None).
        { destruct (getitem q s a) as [old|e'|] eqn:Hget; cbn [obind] in Hq.
          - rewrite setitem_position in Hq.
            apply getitem_Ok in Hget as (ki & kj & Hpos & Hent).
            rewrite Hpos in Hq. unfold entry in Hent.
            destruct (q !! ki); [done|]. by cbn in Hent.
          - injection Hq as <-. by apply getitem_Raise_iff.
          - done. }
        destruct Hpos as [-> Hpos]. right. eauto.
      * injection Hq as <-. apply np_argmax_Raise_iff in Hk as [-> ->]. done.
      * done.
    + injection Hq as <-. apply getrow_Raise_iff in Hrow as [-> Hrow]. by left.
    + done.
  - by apply q_update_loop_free in Hq.
Qed.

(** The update keeps the shape of the array. *)
Lemma q_update_shape (S A : nat) (q : ndarray) s a r s' q' :
  has_shape S A q ->
  q_update alpha gamma q s a r s' = Ok q' ->
  has_shape S A q'.
Proof.
  intros [HS HA]
    (row' & k & m & ki & kj & rowS & old & _ & _ & _ & _ & HrowS & _ & ->)%q_update_Ok.
  split; [by rewrite length_insert|].
  apply Forall_insert; [done|]. rewrite length_insert.
  rewrite Forall_forall in HA. eapply HA, list_elem_of_lookup_2, HrowS.
Qed.

Lemma np_zeros_shape (S A : nat) : has_shape S A (np_zeros S A).
Proof.
  split; [apply length_replicate|].
  apply Forall_replicate, length_replicate.
Qed.

End UpdateFacts.

(** X1. An update of the table ends in one of four ways, decided by the
    indices alone: it succeeds exactly when the row of the next state
    exists and is not empty and the pair (state, action) is accepted; it
    raises [ValueError] exactly when the row of the next state is empty;
    it raises [IndexError] exactly when the next state is rejected, or its
    row is not empty and the pair is rejected; it raises nothing else. *)
Theorem q_update_outcome (alpha gamma : float) (q : ndarray) (s a : Z)
    (r : float) (s' : Z) :
  (is_Ok (q_update alpha gamma q s a r s') = true <->
   (exists row', getrow q s' = Ok row' /\ row' <> []) /\
   is_Some (position q s a)) /\
  (q_update alpha gamma q s a r s' = Raise ValueError <-> getrow q s' = Ok []) /\
  (q_update alpha gamma q s a r s' = Raise IndexError <->
   np_index (length q) s' = None \/
   ((exists row', getrow q s' = Ok row' /\ row' <> []) /\ position q s a = None)) /\
  q_update alpha gamma q s a r s' <> Raise ZeroDivisionError /\
  q_update alpha gamma q s a r s' <> OutOfFuel.
Proof.
  pose proof (q_update_outcome_cases alpha gamma q s a r s') as Hc.
  split; [apply q_update_is_Ok_iff|].
  assert (Hrow_ex : forall row', getrow q s' = Ok row' ->
                      np_index (length q) s' <> None).
  { intros row' (ki & -> & _)%getrow_Ok. done. }
  destruct (q_update alpha gamma q s a r s') as [q'|[]|] eqn:Hq; try done.
  - destruct Hc as [(row' & Hrow & Hne) [p Hp]].
    split; [|split; [|done]]; (split; [done|]).
    + intros Hempty. exfalso. congruence.
    + intros [Hn|[_ Hn]]; exfalso; [by apply (Hrow_ex row')|congruence].
  - split; [|split; [|done]]; [split; [done|]|done].
    intros Hempty. exfalso.
    destruct Hc as [Hn|[(row' & Hrow & Hne) _]];
      [by apply (Hrow_ex [])|congruence].
  - split; [|split; [|done]]; [done|split; [done|]].
    intros [Hn|[(row' & Hrow & Hne) _]]; exfalso;
      [by apply (Hrow_ex [])|congruence].
Qed.

(** ** Invariants of a training run *)

Section RunTriples.

Context {W : Type} {E : Env W}.
Variables alpha gamma epsilon : float.
Variable num_episodes : nat.
Variable np_mean : list float -> float.

Lemma triple_lift {A : Type} (o : outcome A) (P : pystate W -> Prop) Q R :
  (forall a st, o = Ok a -> P st -> Q a st) ->
  (forall e st, o = Raise e -> P st -> R (Some e) st) ->
  o <> OutOfFuel ->
  triple P (lift o) Q R.
Proof.
  intros HQ HR Hf st HP. unfold lift. destruct o as [a|e|]; [auto..|done].
Qed.

Lemma triple_get_qtable (P : pystate W -> Prop) Q R :
  (forall st, P st -> Q (qtable st) st) -> triple P get_qtable Q R.
Proof. intros HQ st HP. by apply HQ. Qed.

Lemma np_max_map_Ok {A : Type} (f : A -> nat) (ls : list A) :
  ls <> [] -> exists mx, np_max (map f ls) = Ok mx.
Proof. destruct ls; [done|]. cbn. eauto. Qed.

(** From the creation of the array to the end of the [for] loop. *)
Lemma train_episodes_triple (I : pystate W -> Prop) (K : locals -> Prop) R fuel :
  (forall st, I (PyState (np_zeros observation_space_n action_space_n)
                   (world st) (stdout st))) ->
  triple I (bind episode_start (train_while alpha gamma epsilon fuel))
    (fun l st => I st /\ K l) R ->
  triple (fun _ => True) (train_episodes alpha gamma epsilon num_episodes fuel)
    (fun res st =>
       I st /\
       exists ls, length ls = num_episodes /\ Forall K ls /\
         res = (map episode_rewards ls, map episode_steps ls)) R.
Proof.
  intros Hzero Hep. unfold train_episodes.
  apply (triple_bind _ _ _ (fun _ st => I st)).
  - intros st _. apply Hzero.
  - intros _. apply (train_for_triple alpha gamma epsilon I K R fuel Hep).
Qed.

(** The whole of [run_env], when printing does not disturb [I] and the
    failure of [np.max] on no episode at all is allowed for. *)
Lemma run_env_triple (I : pystate W -> Prop) (K : locals -> Prop) R fuel :
  (forall st, I (PyState (np_zeros observation_space_n action_space_n)
                   (world st) (stdout st))) ->
  triple I (bind episode_start (train_while alpha gamma epsilon fuel))
    (fun l st => I st /\ K l) R ->
  (forall st ln, I st -> I (PyState (qtable st) (world st) (stdout st ++ [ln]))) ->
  (forall st, I st -> num_episodes = 0%nat -> R (Some ValueError) st) ->
  triple (fun _ => True) (run_env alpha gamma epsilon num_episodes np_mean fuel)
    (fun q st => I st /\ q = qtable st) R.
Proof.
  intros Hzero Hep Hprint Hempty. unfold run_env.
  eapply triple_bind; [by apply (train_episodes_triple I K R)|].
  intros stats. cbn beta.
  apply (triple_bind _ _ _
           (fun _ st => I st /\ exists ls : list locals,
                          length ls = num_episodes /\
                          snd stats = map episode_steps ls)).
  { apply triple_print. intros st [HI (ls & Hlen & _ & ->)].
    split; [by apply Hprint|]. by exists ls. }
  intros _.
  apply (triple_bind _ _ _
           (fun _ st => I st /\ exists ls : list locals,
                          length ls = num_episodes /\
                          snd stats = map episode_steps ls)).
  { apply triple_print. intros st [HI Hls]. split; [by apply Hprint|done]. }
  intros _.
  apply (triple_bind _ _ _ (fun _ st => I st)).
  { apply triple_lift.
    - by intros mx st _ [HI _].
    - intros e st Hmx [HI (ls & Hlen & Hsteps)].
      rewrite Hsteps in Hmx. destruct ls as [|l ls]; [|done].
      cbn in Hmx. injection Hmx as <-. by apply Hempty.
    - by destruct (snd stats). }
  intros mx.
  apply (triple_bind _ _ _ (fun _ st => I st)).
  { apply triple_print. intros st HI. by apply Hprint. }
  intros _. apply triple_get_qtable. by intros st HI.
Qed.

(** A property of the array that the zero array has and every update
    with a reward and a next state of the environment keeps, holds of the
    array after [run_env], however the run ends, and of the array that it
    returns. *)
Lemma run_env_invariant (Inv : ndarray -> Prop) fuel (st : pystate W) :
  Inv (np_zeros observation_space_n action_space_n) ->
  (forall q s a a' w q',
     Inv q ->
     q_update alpha gamma q s a (reward (fst (env_step a' w)))
       (new_state (fst (env_step a' w))) = Ok q' ->
     Inv q') ->
  Inv (qtable (snd (run_env alpha gamma epsilon num_episodes np_mean fuel st))) /\
  forall q,
    fst (run_env alpha gamma epsilon num_episodes np_mean fuel st) = Ok q -> Inv q.
Proof.
  intros Hzero Hupd.
  assert (Hrun : triple (fun _ => True)
                   (run_env alpha gamma epsilon num_episodes np_mean fuel)
                   (fun q st => Inv (qtable st) /\ q = qtable st)
                   (fun _ st => Inv (qtable st))).
  { apply (run_env_triple (fun st => Inv (qtable st)) (fun _ => True)); try done.
    apply (episode_triple _ _ (fun _ st => Inv (qtable st))); try done.
    intros l. apply train_body_triple.
    - intros st0 a st1 sr w' q' [HI _] Hg Hs Hq. cbn.
      apply (Hupd (qtable st0) (state l) a a (world st1)); [done|].
      by rewrite Hs.
    - intros st0 e st' [HI _] _ Hframe. by rewrite Hframe. }
  specialize (Hrun st I).
  destruct (run_env alpha gamma epsilon num_episodes np_mean fuel st)
    as [[q|e|] st']; cbn; [|done..].
  destruct Hrun as [HI ->]. split; [done|]. by intros ? [= <-].
Qed.

End RunTriples.

(** X2. Whatever the environment does and however the run ends, the array
    that [run_env] leaves, and the array that it returns, has one row per
    state and one column per action. *)
Theorem run_env_shape {W : Type} {E : Env W} (alpha gamma epsilon : float)
    (num_episodes : nat) (np_mean : list float -> float) (fuel : nat)
    (st : pystate W) :
  has_shape observation_space_n action_space_n
    (qtable (snd (run_env alpha gamma epsilon num_episodes np_mean fuel st))) /\
  forall q,
    fst (run_env alpha gamma epsilon num_episodes np_mean fuel st) = Ok q ->
    has_shape observation_space_n action_space_n q.
Proof.
  apply (run_env_invariant alpha gamma epsilon num_episodes np_mean
           (has_shape observation_space_n action_space_n)).
  - apply np_zeros_shape.
  - intros q s a a' w q' Hshape Hq. by eapply q_update_shape.
Qed.

(** ** Runs without reward *)

Lemma td_value_zero (alpha gamma r : float) :
  F64.is_finite alpha = true -> F64.is_finite gamma = true ->
  (r == F64.zero)%f64 = true ->
  td_value alpha gamma F64.zero r F64.zero = F64.zero.
Proof.
  intros Ha Hg [sr ->]%F64Arith.eqb_zero.
  destruct alpha as [sa|sa| |sa ma ea]; try discriminate Ha;
    destruct gamma as [sg|sg| |sg mg eg]; try discriminate Hg;
    by destruct sa, sg, sr.
Qed.

Lemma np_zeros_lookup (S A : nat) ki row :
  np_zeros S A !! ki = Some row -> row = replicate A F64.zero.
Proof. unfold np_zeros. by intros [-> _]%lookup_replicate. Qed.

(** On an array of zeros, an update with a zero reward changes nothing. *)
Lemma q_update_zero_table (alpha gamma : float) (S A : nat) s a r s' q' :
  F64.is_finite alpha = true -> F64.is_finite gamma = true ->
  (r == F64.zero)%f64 = true ->
  q_update alpha gamma (np_zeros S A) s a r s' = Ok q' ->
  q' = np_zeros S A.
Proof.
  intros Ha Hg Hr
    (row' & k & m & ki & kj & rowS & old & Hrow & _ & Hm & _ & HrowS & Hold & ->)%q_update_Ok.
  apply getrow_Ok in Hrow as (ki' & _ & Hrow).
  apply np_zeros_lookup in Hrow as ->.
  apply lookup_replicate in Hm as [-> _].
  pose proof (np_zeros_lookup _ _ _ _ HrowS) as ->.
  pose proof Hold as [-> _]%lookup_replicate.
  rewrite td_value_zero by done.
  rewrite (list_insert_id _ _ _ Hold). by apply list_insert_id.
Qed.

(** X3. With finite hyperparameters, in an environment whose rewards are
    all zero, [run_env] leaves and returns the array of zeros: nothing is
    learnt before the first reward. *)
Theorem zero_reward_run {W : Type} {E : Env W} (alpha gamma epsilon : float)
    (num_episodes : nat) (np_mean : list float -> float) (fuel : nat)
    (st : pystate W) :
  F64.is_finite alpha = true ->
  F64.is_finite gamma = true ->
  (forall a w, (reward (fst (env_step a w)) == F64.zero)%f64 = true) ->
  qtable (snd (run_env alpha gamma epsilon num_episodes np_mean fuel st))
    = np_zeros observation_space_n action_space_n /\
  forall q,
    fst (run_env alpha gamma epsilon num_episodes np_mean fuel st) = Ok q ->
    q = np_zeros observation_space_n action_space_n.
Proof.
  intros Ha Hg Hzero.
  apply (run_env_invariant alpha gamma epsilon num_episodes np_mean
           (fun q => q = np_zeros observation_space_n action_space_n));
    [done|].
  intros q s a a' w q' -> Hq.
  eapply q_update_zero_table; [exact Ha|exact Hg|apply Hzero|exact Hq].
Qed.

Lemma zero_reward_run_witness :
  let run := run_env (E := corridor_env F64.zero)
               F64.lit_0_1 F64.lit_0_99 F64.lit_0_1 3 (fun _ => F64.zero) 10
               (PyState [] 0%nat []) in
  (forall a w,
     (reward (fst (env_step (Env := corridor_env F64.zero) a w)) == F64.zero)%f64
     = true) /\
  fst run = Ok (np_zeros 2 2) /\
  qtable (snd run) = np_zeros 2 2.
Proof.
  cbv zeta.
  assert (Hzero : forall a w,
            (reward (fst (env_step (Env := corridor_env F64.zero) a w))
             == F64.zero)%f64 = true) by (by intros a [|w]).
  split; [exact Hzero|]. split; [vm_compute; reflexivity|].
  exact (proj1 (zero_reward_run (E := corridor_env F64.zero)
                  F64.lit_0_1 F64.lit_0_99 F64.lit_0_1 3 (fun _ => F64.zero) 10
                  (PyState [] 0%nat []) eq_refl eq_refl Hzero)).
Defined.

(** ** Rows of terminal states *)

(** X4. A state that the environment never gives as the start of an
    episode, and gives as the result of a step only when that step ends
    the episode, keeps its row of zeros through the whole of [run_env],
    however the run ends: the value that the update reads for a terminal
    next state is always zero. *)
Theorem terminal_row_stays_zero {W : Type} {E : Env W}
    (alpha gamma epsilon : float) (num_episodes : nat)
    (np_mean : list float -> float) (fuel : nat) (st : pystate W) (g : nat) :
  (g < observation_space_n)%nat ->
  (forall w, np_index observation_space_n (fst (env_reset w)) <> Some g) ->
  (forall a w,
     np_index observation_space_n (new_state (fst (env_step a w))) = Some g ->
     terminated (fst (env_step a w)) || truncated (fst (env_step a w)) = true) ->
  qtable (snd (run_env alpha gamma epsilon num_episodes np_mean fuel st)) !! g
    = Some (replicate action_space_n F64.zero).
Proof.
  intros Hg Hreset Hterm.
  set (I := fun st : pystate W =>
              has_shape observation_space_n action_space_n (qtable st) /\
              qtable st !! g = Some (replicate action_space_n F64.zero)).
  set (J := fun (l : locals) (st : pystate W) =>
              I st /\
              (done l = false ->
               np_index observation_space_n (state l) <> Some g)).
  assert (Hrun : triple (fun _ => True)
                   (run_env alpha gamma epsilon num_episodes np_mean fuel)
                   (fun q st => I st /\ q = qtable st) (fun _ st => I st)).
  { apply (run_env_triple alpha gamma epsilon num_episodes np_mean I
             (fun _ => True)); try done.
    - intros st0. split; [apply np_zeros_shape|].
      by apply lookup_replicate_2.
    - apply (episode_triple _ I J).
      + intros st0 HI. split; [done|]. intros _. apply Hreset.
      + intros l. apply train_body_triple.
        * intros st0 a st1 sr w' q' [[[Hshape Hrow] Hstate] Hd] Hg0 Hs Hq.
          split; [split|]; cbn.
          -- by eapply q_update_shape.
          -- apply q_update_Ok in Hq
               as (row' & k & m & ki & kj & rowS & old & _ & _ & _ & Hpos & _ & _ & ->).
             apply position_Some in Hpos as [Hi _].
             destruct Hshape as [HS _]. rewrite HS in Hi.
             rewrite list_lookup_insert_ne; [done|].
             intros ->. by apply Hstate.
          -- intros Hd' Hnew.
             assert (Hsr : sr = fst (env_step a (world st1))) by (by rewrite Hs).
             rewrite Hsr in Hd', Hnew. by rewrite (Hterm _ _ Hnew) in Hd'.
        * intros st0 e st' [[[Hshape Hrow] _] _] _ Hframe. unfold I.
          by rewrite Hframe.
      + by intros l st0 [HI _].
      + by intros l st0 [HI _] _. }
  specialize (Hrun st Logic.I).
  destruct (run_env alpha gamma epsilon num_episodes np_mean fuel st)
    as [[q|e|] st']; cbn; unfold I in Hrun; tauto.
Qed.

Lemma terminal_row_stays_zero_witness :
  let run := run_env (E := corridor_env F64.one)
               F64.lit_0_1 F64.lit_0_99 F64.lit_0_1 3 (fun _ => F64.zero) 10
               (PyState [] 0%nat []) in
  is_Ok (fst run) = true /\
  qtable (snd run) !! 0%nat <> Some [F64.zero; F64.zero] /\
  qtable (snd run) !! 1%nat = Some [F64.zero; F64.zero].
Proof.
  cbv zeta. split; [vm_compute; reflexivity|]. split; [vm_compute; discriminate|].
  apply (terminal_row_stays_zero (E := corridor_env F64.one)
           F64.lit_0_1 F64.lit_0_99 F64.lit_0_1 3 (fun _ => F64.zero) 10
           (PyState [] 0%nat []) 1%nat).
  - cbn. lia.
  - intros w. cbn. discriminate.
  - intros a [|w]; cbn; [reflexivity|discriminate].
Defined.

(** ** Environments that honour the contract *)

Section Contract.

Context {W : Type} {E : Env W}.
Variables alpha gamma epsilon : float.
Variable num_episodes : nat.
Variable np_mean : list float -> float.

Lemma shape_getrow (S A : nat) (q : ndarray) s :
  has_shape S A q -> 0 <= s < Z.of_nat S ->
  exists row, getrow q s = Ok row /\ length row = A.
Proof.
  intros [HS HA] Hs.
  destruct (lookup_lt_is_Some_2 q (Z.to_nat s)) as [row Hrow]; [lia|].
  exists row. split.
  - apply getrow_Ok. exists (Z.to_nat s). split; [|done].
    replace s with (Z.of_nat (Z.to_nat s)) at 1 by lia.
    apply np_index_nonneg. lia.
  - rewrite Forall_forall in HA. eapply HA, list_elem_of_lookup_2, Hrow.
Qed.

Lemma shape_position (S A : nat) (q : ndarray) s a :
  has_shape S A q -> 0 <= s < Z.of_nat S -> 0 <= a < Z.of_nat A ->
  is_Some (position q s a).
Proof.
  intros Hshape Hs Ha.
  destruct (shape_getrow S A q s Hshape Hs) as (row & (ki & Hi & Hrow)%getrow_Ok & Hlen).
  exists (ki, Z.to_nat a). apply position_Some. split; [done|].
  exists row. split; [done|]. rewrite Hlen.
  replace a with (Z.of_nat (Z.to_nat a)) at 1 by lia.
  apply np_index_nonneg. lia.
Qed.

(** The action that the selector returns is a sampled one or a column of
    the row. *)
Lemma greedy_epsilon_in_range (S A : nat) s (st : pystate W) a st' :
  has_shape S A (qtable st) ->
  (forall w, 0 <= fst (action_space_sample w) < Z.of_nat A) ->
  greedy_epsilon epsilon s st = (Ok a, st') ->
  0 <= a < Z.of_nat A.
Proof.
  intros [HS HA] Hsample. unfold greedy_epsilon.
  intros (u & st1 & [-> ->]%call_Ok & Hrest)%bind_Ok.
  destruct (_ <? epsilon)%f64.
  { apply call_Ok in Hrest as [-> _]. apply Hsample. }
  unfold exploit in Hrest.
  apply bind_Ok in Hrest as (q & st2 & [= <- <-] & Hrest).
  apply bind_Ok in Hrest as (row & st3 & [Hrow ->]%lift_Ok & Hrest).
  apply bind_Ok in Hrest as (x0 & st4 & [Hx0 ->]%lift_Ok & Hrest).
  destruct (_ == x0)%f64.
  { apply call_Ok in Hrest as [-> _]. apply Hsample. }
  apply lift_Ok in Hrest as [Harg _].
  apply np_argmax_Ok in Harg as [Hnn (m & Hm & _)].
  apply lookup_lt_Some in Hm.
  cbn in Hrow. apply getrow_Ok in Hrow as (ki & _ & Hrow).
  rewrite Forall_forall in HA.
  apply list_elem_of_lookup_2, HA in Hrow. lia.
Qed.

(** On a state that the array accepts the selector does not fail. *)
Lemma greedy_epsilon_total (S A : nat) s (st : pystate W) :
  has_shape S A (qtable st) ->
  0 <= s < Z.of_nat S ->
  (0 < A)%nat ->
  exists a st', greedy_epsilon epsilon s st = (Ok a, st').
Proof.
  intros Hshape Hs HA. unfold greedy_epsilon, bind, call.
  destruct (random_uniform (world st)) as [u w1].
  destruct (u <? epsilon)%f64.
  { cbn. destruct (action_space_sample w1); eauto. }
  unfold exploit, bind, get_qtable, lift. cbn.
  destruct (shape_getrow S A (qtable st) s Hshape Hs) as (row & Hrow & Hlen).
  rewrite Hrow.
  destruct (shape_position S A (qtable st) s 0 Hshape Hs) as [[ki kj] Hpos];
    [lia|].
  destruct (position_entry _ _ _ _ _ Hpos) as [x0 Hx0].
  assert (Hget : getitem (qtable st) s 0 = Ok x0)
    by (apply getitem_Ok; eauto).
  rewrite Hget.
  destruct (_ == x0)%f64.
  { unfold call. cbn. destruct (action_space_sample w1); eauto. }
  destruct (np_argmax_spec row) as (k & -> & _); [|eauto].
  intros ->. cbn in Hlen. lia.
Qed.

(** With an environment that honours its contract, a pass of the training
    loop from a state of the environment completes. *)
Lemma train_body_total l (st : pystate W) :
  env_contract E ->
  has_shape observation_space_n action_space_n (qtable st) ->
  0 <= state l < Z.of_nat observation_space_n ->
  exists l' st', train_body alpha gamma epsilon l st = (Ok l', st').
Proof.
  intros (Hreset & Hstep & Hsample) Hshape Hstate.
  assert (HA : (0 < action_space_n)%nat)
    by (specialize (Hsample (world st)); lia).
  destruct (greedy_epsilon_total _ _ (state l) st Hshape Hstate HA)
    as (a & st1 & Hg).
  pose proof (greedy_epsilon_in_range _ _ _ _ _ _ Hshape Hsample Hg) as Ha.
  pose proof (greedy_epsilon_reads_only epsilon (state l) st) as Hgq.
  rewrite Hg in Hgq. cbn in Hgq.
  destruct (env_step a (world st1)) as [sr w'] eqn:Hs.
  assert (Hnew : 0 <= new_state sr < Z.of_nat observation_space_n).
  { specialize (Hstep a (world st1)). by rewrite Hs in Hstep. }
  assert (Hok : is_Ok (q_update alpha gamma (qtable st1) (state l) a
                         (reward sr) (new_state sr)) = true).
  { apply q_update_is_Ok_iff. rewrite Hgq. split.
    - destruct (shape_getrow _ _ _ _ Hshape Hnew) as (row & Hrow & Hlen).
      exists row. split; [done|]. intros ->. cbn in Hlen. lia.
    - by eapply shape_position. }
  destruct (q_update alpha gamma (qtable st1) (state l) a (reward sr)
              (new_state sr)) as [q'| |] eqn:Hq; try done.
  eexists _, _. apply train_body_Ok. by exists a, st1, sr, w', q'.
Qed.

Lemma eval_body_total l (st : pystate W) :
  env_contract E ->
  has_shape observation_space_n action_space_n (qtable st) ->
  0 <= state l < Z.of_nat observation_space_n ->
  exists row a, getrow (qtable st) (state l) = Ok row /\ np_argmax row = Ok a.
Proof.
  intros (_ & _ & Hsample) Hshape Hstate.
  assert (HA : (0 < action_space_n)%nat)
    by (specialize (Hsample (world st)); lia).
  destruct (shape_getrow _ _ _ _ Hshape Hstate) as (row & Hrow & Hlen).
  destruct (np_argmax_spec row) as (k & Hk & _).
  { intros ->. cbn in Hlen. lia. }
  eauto.
Qed.

End Contract.

Section EvaluationTriple.

Context {W : Type} {E : Env W}.
Variable np_mean : list float -> float.

(** The whole of [evaluation], when printing does not disturb [I] and the
    failure of [np.max] on no trial at all is allowed for. *)
Lemma evaluation_triple (I : pystate W -> Prop) (K : locals -> Prop) R
    fuel num_trials :
  triple I (bind episode_start (eval_while fuel)) (fun l st => I st /\ K l) R ->
  (forall st ln, I st -> I (PyState (qtable st) (world st) (stdout st ++ [ln]))) ->
  (forall st, I st -> num_trials = 0%nat -> R (Some ValueError) st) ->
  triple I (evaluation np_mean fuel num_trials) (fun _ st => I st) R.
Proof.
  intros Hep Hprint Hempty. unfold evaluation.
  eapply triple_bind;
    [by apply (eval_for_triple I K R fuel Hep num_trials 0%nat [] [])|].
  intros res. cbn beta.
  set (Q := fun (_ : unit) (st : pystate W) =>
              I st /\ exists ls : list locals,
                length ls = num_trials /\ snd res = map episode_steps ls).
  apply (triple_bind _ _ _ Q).
  { apply triple_print. intros st [HI (ls & Hlen & _ & ->)].
    split; [by apply Hprint|]. by exists ls. }
  intros ?. apply (triple_bind _ _ _ Q).
  { apply triple_print. intros st [HI Hls]. split; [by apply Hprint|done]. }
  intros ?.
  apply (triple_bind _ _ _ (fun _ st => I st /\ num_trials <> 0%nat)).
  { apply triple_lift.
    - intros mx st Hmx [HI (ls & Hlen & Hsteps)]. split; [done|].
      intros Hn. rewrite Hn in Hlen. apply nil_length_inv in Hlen as ->.
      by rewrite Hsteps in Hmx.
    - intros e st Hmx [HI (ls & Hlen & Hsteps)].
      rewrite Hsteps in Hmx. destruct ls as [|l ls]; [|done].
      cbn in Hmx. injection Hmx as <-. by apply Hempty.
    - by destruct (snd res). }
  intros mx.
  apply (triple_bind _ _ _ (fun _ st => I st /\ num_trials <> 0%nat)).
  { apply triple_print. intros st [HI Hn]. split; [by apply Hprint|done]. }
  intros ?.
  apply (triple_bind _ _ _ (fun _ st => I st)).
  { apply triple_lift; unfold truediv.
    - by intros rate st _ [HI _].
    - intros e st Hdiv [_ Hn]. by destruct num_trials.
    - by destruct num_trials. }
  intros rate. apply triple_print. intros st HI. by apply Hprint.
Qed.

End EvaluationTriple.

(** X5. On an array with one row per state and [A] columns, for a state in
    range and a sampler that answers in [[0, A)], the selector returns an
    action in [[0, A)]: it does not fail, and it leaves the array as it
    was. *)
Theorem greedy_epsilon_valid_action {W : Type} {E : Env W} (epsilon : float)
    (S A : nat) (s : Z) (st : pystate W) :
  has_shape S A (qtable st) ->
  0 <= s < Z.of_nat S ->
  (forall w, 0 <= fst (action_space_sample w) < Z.of_nat A) ->
  exists a st',
    greedy_epsilon epsilon s st = (Ok a, st') /\
    0 <= a < Z.of_nat A /\
    qtable st' = qtable st.
Proof.
  intros Hshape Hs Hsample.
  assert (HA : (0 < A)%nat) by (specialize (Hsample (world st)); lia).
  destruct (greedy_epsilon_total epsilon S A s st Hshape Hs HA) as (a & st' & Hg).
  exists a, st'. split; [done|]. split.
  - by eapply greedy_epsilon_in_range.
  - pose proof (greedy_epsilon_reads_only epsilon s st) as Hq.
    by rewrite Hg in Hq.
Qed.

Lemma greedy_epsilon_valid_action_witness :
  let st := PyState [[F64.zero; F64.lit_0_1]; [F64.zero; F64.zero]] 2%nat [] in
  greedy_epsilon (E := corridor_env F64.one) F64.lit_0_1 0 st = (Ok 1, st) /\
  exists a st',
    greedy_epsilon (E := corridor_env F64.one) F64.lit_0_1 0 st = (Ok a, st') /\
    0 <= a < 2 /\
    qtable st' = qtable st.
Proof.
  cbv zeta. split; [vm_compute; reflexivity|].
  apply (greedy_epsilon_valid_action (E := corridor_env F64.one) F64.lit_0_1 2 2).
  - split; [reflexivity | by repeat constructor].
  - lia.
  - intros w. cbn. lia.
Defined.

(** X6. With an environment that honours its contract and at least one
    episode, [run_env] raises no exception: it returns, unless an episode
    outlasts the fuel. *)
Theorem run_env_never_raises {W : Type} {E : Env W} (alpha gamma epsilon : float)
    (num_episodes : nat) (np_mean : list float -> float) (fuel : nat)
    (st : pystate W) :
  env_contract E ->
  (0 < num_episodes)%nat ->
  forall e,
    fst (run_env alpha gamma epsilon num_episodes np_mean fuel st) <> Raise e.
Proof.
  intros Hcontract Hn e.
  set (I := fun st : pystate W =>
              has_shape observation_space_n action_space_n (qtable st)).
  set (J := fun (l : locals) (st : pystate W) =>
              I st /\ 0 <= state l < Z.of_nat observation_space_n).
  assert (Hrun : triple (fun _ => True)
                   (run_env alpha gamma epsilon num_episodes np_mean fuel)
                   (fun q st => I st /\ q = qtable st) (fun oe _ => oe = None)).
  { apply (run_env_triple alpha gamma epsilon num_episodes np_mean I
             (fun _ => True)); try done.
    - intros st0. apply np_zeros_shape.
    - apply (episode_triple _ I J); try done.
      + intros st0 HI. split; [done|]. apply Hcontract.
      + intros l. apply train_body_triple.
        * intros st0 a st1 sr w' q' [[Hshape Hstate] Hd] Hg Hs Hq.
          split; [by eapply q_update_shape|]. cbn.
          destruct Hcontract as (_ & Hstep & _).
          specialize (Hstep a (world st1)). by rewrite Hs in Hstep.
        * intros st0 e0 st' [[Hshape Hstate] _] Hb _. exfalso.
          destruct (train_body_total alpha gamma epsilon l st0)
            as (l' & st1 & Hok); try done.
          congruence.
      + by intros l st0 [HI _] _.
    - intros st0 _ ->. lia. }
  specialize (Hrun st Logic.I). intros Hr.
  destruct (run_env alpha gamma epsilon num_episodes np_mean fuel st)
    as [[q|e0|] st']; cbn in Hr; [done| |done].
  by cbn in Hrun.
Qed.

Lemma run_env_never_raises_witness :
  env_contract (corridor_env F64.one) /\
  forall e,
    fst (run_env (E := corridor_env F64.one)
           F64.lit_0_1 F64.lit_0_99 F64.lit_0_1 3 (fun _ => F64.zero) 10
           (PyState [] 0%nat [])) <> Raise e.
Proof.
  assert (Hc : env_contract (corridor_env F64.one)).
  { split; [|split].
    - intros w. cbn. lia.
    - intros a [|w]; cbn; lia.
    - intros w. cbn. lia. }
  split; [exact Hc|].
  apply (run_env_never_raises (E := corridor_env F64.one)); [exact Hc|lia].
Defined.

(** X7. On an array with one row per state and one column per action,
    with an environment that honours its contract and at least one trial,
    [evaluation] raises no exception. *)
Theorem evaluation_never_raises {W : Type} {E : Env W}
    (np_mean : list float -> float) (fuel num_trials : nat) (st : pystate W) :
  env_contract E ->
  has_shape observation_space_n action_space_n (qtable st) ->
  (0 < num_trials)%nat ->
  forall e, fst (evaluation np_mean fuel num_trials st) <> Raise e.
Proof.
  intros Hcontract Hshape Hn e.
  set (I := fun st : pystate W =>
              has_shape observation_space_n action_space_n (qtable st)).
  set (J := fun (l : locals) (st : pystate W) =>
              I st /\ 0 <= state l < Z.of_nat observation_space_n).
  assert (Hrun : triple I (evaluation np_mean fuel num_trials)
                   (fun _ st => I st) (fun oe _ => oe = None)).
  { apply (evaluation_triple np_mean I (fun _ => True)); try done.
    - apply (episode_triple _ I J); try done.
      + intros st0 HI. split; [done|]. apply Hcontract.
      + intros l. apply eval_body_triple.
        * intros st0 row a [[HI Hstate] _] _ _. split; [done|]. cbn.
          apply Hcontract.
        * intros st0 e0 [[HI Hstate] _] Hfail. exfalso.
          destruct (eval_body_total l st0 Hcontract HI Hstate)
            as (row & a & Hrow & Ha).
          destruct Hfail as [Hfail|(row' & Hrow' & Hfail)]; congruence.
      + by intros l st0 [HI _] _.
    - intros st0 _ ->. lia. }
  specialize (Hrun st Hshape). intros Hr.
  destruct (evaluation np_mean fuel num_trials st) as [[u|e0|] st'];
    cbn in Hr; [done| |done].
  by cbn in Hrun.
Qed.

Lemma evaluation_never_raises_witness :
  let st := PyState [[F64.zero; F64.lit_0_1]; [F64.zero; F64.zero]] 0%nat [] in
  is_Ok (fst (evaluation (E := corridor_env F64.one) (fun _ => F64.zero) 10 10 st))
  = true /\
  forall e,
    fst (evaluation (E := corridor_env F64.one) (fun _ => F64.zero) 10 10 st)
    <> Raise e.
Proof.
  cbv zeta. split; [vm_compute; reflexivity|].
  apply (evaluation_never_raises (E := corridor_env F64.one)).
  - split; [|split].
    + intros w. cbn. lia.
    + intros a [|w]; cbn; lia.
    + intros w. cbn. lia.
  - split; [reflexivity | by repeat constructor].
  - lia.
Defined.

(** X8. Whatever the array, the environment and the number of trials,
    [evaluation] never raises [ZeroDivisionError]: with no trial,
    [np.max] of the empty list of step counts fails first, with
    [ValueError], after two lines are printed. *)
Theorem evaluation_never_divides_by_zero {W : Type} {E : Env W}
    (np_mean : list float -> float) (fuel num_trials : nat) (st : pystate W) :
  fst (evaluation np_mean fuel num_trials st) <> Raise ZeroDivisionError /\
  (num_trials = 0%nat ->
   evaluation np_mean fuel num_trials st
   = (Raise ValueError,
      PyState (qtable st) (world st)
        (stdout st ++ [Msg "Evaluation complete"; MeanReward (np_mean [])]))).
Proof.
  split.
  - assert (Hrun : triple (fun _ => True) (evaluation np_mean fuel num_trials)
                     (fun _ _ => True)
                     (fun oe _ => oe <> Some ZeroDivisionError)).
    { apply (evaluation_triple np_mean (fun _ => True) (fun _ => True));
        try done.
      apply (episode_triple _ _ (fun _ _ => True)); try done.
      intros l. apply eval_body_triple; [done|].
      intros st0 e _ [[-> _]%getrow_Raise_iff|(row & _ & [-> _]%np_argmax_Raise_iff)];
        done. }
    specialize (Hrun st Logic.I). intros Hr.
    destruct (evaluation np_mean fuel num_trials st) as [[u|e0|] st'];
      cbn in Hr; [done| |done].
    injection Hr as ->. by cbn in Hrun.
  - intros ->. unfold evaluation, bind, print, lift. cbn.
    by rewrite <- app_assoc.
Qed.

(** ** What evaluation does not use *)

Section EvaluationDeterminism.

Context {W : Type}.
Variable np_mean : list float -> float.

Lemma bind_ext {A B : Type} (c c' : M W A) (k k' : A -> M W B) st :
  c st = c' st -> (forall a st1, k a st1 = k' a st1) ->
  bind c k st = bind c' k' st.
Proof.
  intros Hc Hk. unfold bind. rewrite Hc.
  by destruct (c' st) as [[a|e|] st1].
Qed.

Lemma while_not_done_ext (body body' : locals -> M W locals) :
  (forall l st, body l st = body' l st) ->
  forall fuel l st,
    while_not_done body fuel l st = while_not_done body' fuel l st.
Proof.
  intros Hbody fuel. induction fuel as [|fuel IH]; intros l st; cbn;
    destruct (done l); try done.
  by apply bind_ext.
Qed.

Variables E1 E2 : Env W.
Hypothesis Hreset : forall w, env_reset (Env := E1) w = env_reset (Env := E2) w.
Hypothesis Hstep :
  forall a w, env_step (Env := E1) a w = env_step (Env := E2) a w.

Lemma eval_body_same l st :
  eval_body (E := E1) l st = eval_body (E := E2) l st.
Proof.
  rewrite !eval_body_unfold.
  destruct (getrow (qtable st) (state l)) as [row| |]; [|done..].
  destruct (np_argmax row) as [a| |]; [|done..].
  by rewrite Hstep.
Qed.

Lemma episode_start_same st :
  episode_start (E := E1) st = episode_start (E := E2) st.
Proof. unfold episode_start, bind, call. by rewrite Hreset. Qed.

Lemma eval_for_same fuel n :
  forall k rewards steps st,
    eval_for (E := E1) fuel n k rewards steps st
    = eval_for (E := E2) fuel n k rewards steps st.
Proof.
  induction n as [|n IH]; intros k rewards steps st; cbn [eval_for]; [done|].
  apply bind_ext; [apply episode_start_same|]. intros l0 st1.
  apply bind_ext; [|by intros l st2].
  apply while_not_done_ext, eval_body_same.
Qed.

End EvaluationDeterminism.

(** X9. [evaluation] draws nothing: with two sets of collaborators that
    share [env.reset] and [env.step], and differ as they like in
    [env.action_space.sample] and [random.uniform], it gives the same
    outcome and leaves the same state. *)
Theorem evaluation_ignores_random {W : Type} (E1 E2 : Env W)
    (np_mean : list float -> float) (fuel num_trials : nat) (st : pystate W) :
  (forall w, env_reset (Env := E1) w = env_reset (Env := E2) w) ->
  (forall a w, env_step (Env := E1) a w = env_step (Env := E2) a w) ->
  evaluation (E := E1) np_mean fuel num_trials st
  = evaluation (E := E2) np_mean fuel num_trials st.
Proof.
  intros Hreset Hstep. unfold evaluation.
  apply bind_ext; [by apply eval_for_same|]. done.
Qed.

Lemma evaluation_ignores_random_witness :
  let E2 := {| observation_space_n := 2; action_space_n := 2;
               env_reset := env_reset (Env := corridor_env F64.one);
               env_step := env_step (Env := corridor_env F64.one);
               action_space_sample := fun w : nat => (0, S w);
               random_uniform := fun w : nat => (F64.zero, S w) |} in
  let st := PyState [[F64.zero; F64.lit_0_1]; [F64.zero; F64.zero]] 0%nat [] in
  evaluation (E := corridor_env F64.one) (fun _ => F64.zero) 10 4 st
  = evaluation (E := E2) (fun _ => F64.zero) 10 4 st.
Proof.
  cbv zeta.
  apply (evaluation_ignores_random (corridor_env F64.one)); reflexivity.
Defined.

(** ** Ties in evaluation *)





(** ** The statistics of the episodes *)

Section EpisodeStatistics.

Context {W : Type} {E : Env W}.
Variables alpha gamma epsilon : float.
Variable num_episodes : nat.

(** A property [J] of the locals that holds when an episode starts and
    that every step of the environment keeps, holds of the locals at the
    end of every episode of a completed run, in either loop. *)
Lemma train_episodes_locals (J : locals -> Prop) fuel (st : pystate W)
    rewards steps st' :
  (forall s, J {| state := s; done := false;
                  episode_rewards := F64.zero; episode_steps := 0 |}) ->
  (forall l a w, J l -> done l = false -> J (next_locals l (fst (env_step a w)))) ->
  train_episodes alpha gamma epsilon num_episodes fuel st
    = (Ok (rewards, steps), st') ->
  exists ls, length ls = num_episodes /\
    Forall (fun l => J l /\ done l = true) ls /\
    rewards = map episode_rewards ls /\ steps = map episode_steps ls.
Proof.
  intros Hstart Hstep Hrun.
  assert (Htr : triple (fun _ => True)
                  (train_episodes alpha gamma epsilon num_episodes fuel)
                  (fun res _ => exists ls, length ls = num_episodes /\
                     Forall (fun l => J l /\ done l = true) ls /\
                     res = (map episode_rewards ls, map episode_steps ls))
                  (fun _ _ => True)).
  { eapply triple_conseq;
      [apply (train_episodes_triple alpha gamma epsilon num_episodes
                (fun _ => True) (fun l => J l /\ done l = true)
                (fun _ _ => True))| | |]; try done.
    - apply (episode_triple _ _ (fun l _ => J l)); try done.
      intros l. apply train_body_triple; [|done].
      intros st0 a st1 sr w' q' [HJ Hd] _ Hs _.
      pose proof (Hstep l a (world st1) HJ Hd) as HJ'.
      by rewrite Hs in HJ'.
    - by intros res st0 [_ Hls]. }
  specialize (Htr st I). rewrite Hrun in Htr.
  destruct Htr as (ls & Hlen & HKs & [= -> ->]). by exists ls.
Qed.

Lemma eval_for_locals (J : locals -> Prop) fuel n (st : pystate W)
    k rewards steps st' :
  (forall s, J {| state := s; done := false;
                  episode_rewards := F64.zero; episode_steps := 0 |}) ->
  (forall l a w, J l -> done l = false -> J (next_locals l (fst (env_step a w)))) ->
  eval_for fuel n 0 [] [] st = (Ok (k, rewards, steps), st') ->
  exists ls, length ls = n /\
    Forall (fun l => J l /\ done l = true) ls /\
    k = successes (map episode_rewards ls) /\
    rewards = map episode_rewards ls /\ steps = map episode_steps ls.
Proof.
  intros Hstart Hstep Hrun.
  assert (Htr : triple (fun _ => True) (eval_for fuel n 0 [] [])
                  (fun res _ => exists ls, length ls = n /\
                     Forall (fun l => J l /\ done l = true) ls /\
                     res = ((0 + successes (map episode_rewards ls))%nat,
                            [] ++ map episode_rewards ls,
                            [] ++ map episode_steps ls))
                  (fun _ _ => True)).
  { eapply triple_conseq;
      [apply (eval_for_triple (fun _ => True) (fun l => J l /\ done l = true)
                (fun _ _ => True) fuel)| | |];
      try done.
    - apply (episode_triple _ _ (fun l _ => J l)); try done.
      intros l. apply eval_body_triple; [|done].
      intros st0 row a [HJ Hd] _ _.
      exact (Hstep l a (world st0) HJ Hd).
    - by intros res st0 [_ Hls]. }
  specialize (Htr st I). rewrite Hrun in Htr.
  destruct Htr as (ls & Hlen & HKs & [= -> -> ->]). by exists ls.
Qed.

Lemma successes_le (rewards : list float) :
  (successes rewards <= length rewards)%nat.
Proof.
  unfold successes. induction rewards as [|x rewards IH]; cbn; [lia|].
  destruct (x == F64.one)%f64; cbn; lia.
Qed.

End EpisodeStatistics.

(** X11. In a completed run each episode makes at least one step: every
    entry of the list of step counts is at least [1], in training and in
    evaluation, where moreover the counter of successes is at most the
    number of trials. *)
Theorem episodes_take_steps {W : Type} {E : Env W} (alpha gamma epsilon : float)
    (num_episodes fuel : nat) (st : pystate W) :
  (forall rewards steps st',
     train_episodes alpha gamma epsilon num_episodes fuel st
       = (Ok (rewards, steps), st') ->
     length steps = num_episodes /\ Forall (fun n => (1 <= n)%nat) steps) /\
  (forall num_trials k rewards steps st',
     eval_for fuel num_trials 0 [] [] st = (Ok (k, rewards, steps), st') ->
     length steps = num_trials /\ Forall (fun n => (1 <= n)%nat) steps /\
     (k <= num_trials)%nat).
Proof.
  set (J := fun l : locals => done l = true -> (1 <= episode_steps l)%nat).
  assert (Hstart : forall s, J {| state := s; done := false;
                                  episode_rewards := F64.zero;
                                  episode_steps := 0 |}) by done.
  assert (Hstep : forall l a w, J l -> done l = false ->
                    J (next_locals l (fst (env_step a w)))).
  { intros l a w _ _ _. cbn. lia. }
  assert (Hsteps : forall ls : list locals,
            Forall (fun l => J l /\ done l = true) ls ->
            Forall (fun n => (1 <= n)%nat) (map episode_steps ls)).
  { intros ls Hls. apply Forall_map. eapply Forall_impl; [exact Hls|].
    intros l [HJ Hd]. by apply HJ. }
  split.
  - intros rewards steps st' Hrun.
    destruct (train_episodes_locals alpha gamma epsilon num_episodes J fuel st
                rewards steps st' Hstart Hstep Hrun)
      as (ls & Hlen & Hls & -> & ->).
    split; [by rewrite length_map|by apply Hsteps].
  - intros num_trials k rewards steps st' Hrun.
    destruct (eval_for_locals J fuel num_trials st k rewards steps st'
                Hstart Hstep Hrun)
      as (ls & Hlen & Hls & -> & -> & ->).
    split; [by rewrite length_map|]. split; [by apply Hsteps|].
    pose proof (successes_le (map episode_rewards ls)) as Hle.
    rewrite length_map in Hle. lia.
Qed.

(** X12. In an environment with the sparse binary reward of the
    notebook's task (a step gives the reward [0.0], or the reward [1.0]
    and ends the episode) the total of every episode of a completed run is
    exactly [0.0] or exactly [1.0], in training and in evaluation: the
    test [episode_reward == 1] compares exact values. *)
Theorem binary_reward_totals {W : Type} {E : Env W} (alpha gamma epsilon : float)
    (num_episodes fuel : nat) (st : pystate W) :
  (forall a w,
     reward (fst (env_step a w)) = F64.zero \/
     (reward (fst (env_step a w)) = F64.one /\
      terminated (fst (env_step a w)) || truncated (fst (env_step a w)) = true)) ->
  (forall rewards steps st',
     train_episodes alpha gamma epsilon num_episodes fuel st
       = (Ok (rewards, steps), st') ->
     Forall (fun x => x = F64.zero \/ x = F64.one) rewards) /\
  (forall num_trials k rewards steps st',
     eval_for fuel num_trials 0 [] [] st = (Ok (k, rewards, steps), st') ->
     Forall (fun x => x = F64.zero \/ x = F64.one) rewards).
Proof.
  intros Hbinary.
  set (J := fun l : locals =>
              (done l = false -> episode_rewards l = F64.zero) /\
              (episode_rewards l = F64.zero \/ episode_rewards l = F64.one)).
  assert (Hstart : forall s, J {| state := s; done := false;
                                  episode_rewards := F64.zero;
                                  episode_steps := 0 |})
    by (by split; [|left]).
  assert (Hstep : forall l a w, J l -> done l = false ->
                    J (next_locals l (fst (env_step a w)))).
  { intros l a w [Hzero _] Hd. unfold J, next_locals. cbn.
    rewrite (Hzero Hd).
    destruct (Hbinary a w) as [-> | [-> ->]].
    - split; [done|by left].
    - split; [done|by right]. }
  assert (Hrewards : forall ls : list locals,
            Forall (fun l => J l /\ done l = true) ls ->
            Forall (fun x => x = F64.zero \/ x = F64.one) (map episode_rewards ls)).
  { intros ls Hls. apply Forall_map. eapply Forall_impl; [exact Hls|].
    by intros l [[_ HJ] _]. }
  split.
  - intros rewards steps st' Hrun.
    destruct (train_episodes_locals alpha gamma epsilon num_episodes J fuel st
                rewards steps st' Hstart Hstep Hrun)
      as (ls & Hlen & Hls & -> & ->).
    by apply Hrewards.
  - intros num_trials k rewards steps st' Hrun.
    destruct (eval_for_locals J fuel num_trials st k rewards steps st'
                Hstart Hstep Hrun)
      as (ls & Hlen & Hls & -> & -> & ->).
    by apply Hrewards.
Qed.

Lemma binary_reward_totals_witness :
  let st := PyState (np_zeros 2 2) 0%nat [] in
  (forall a w,
     reward (fst (env_step (Env := corridor_env F64.one) a w)) = F64.zero \/
     (reward (fst (env_step (Env := corridor_env F64.one) a w)) = F64.one /\
      terminated (fst (env_step (Env := corridor_env F64.one) a w))
      || truncated (fst (env_step (Env := corridor_env F64.one) a w)) = true)) /\
  fst (eval_for (E := corridor_env F64.one) 10 2 0 [] [] st)
    = Ok (2%nat, [F64.one; F64.one], [3%nat; 3%nat]) /\
  Forall (fun x => x = F64.zero \/ x = F64.one) [F64.one; F64.one].
Proof.
  cbv zeta.
  assert (Hb : forall a w,
     reward (fst (env_step (Env := corridor_env F64.one) a w)) = F64.zero \/
     (reward (fst (env_step (Env := corridor_env F64.one) a w)) = F64.one /\
      terminated (fst (env_step (Env := corridor_env F64.one) a w))
      || truncated (fst (env_step (Env := corridor_env F64.one) a w)) = true)).
  { intros a [|w]; cbn; [right|left]; done. }
  split; [exact Hb|]. split; [vm_compute; reflexivity|].
  refine (proj2 (binary_reward_totals (E := corridor_env F64.one)
            F64.zero F64.zero F64.zero 0 10 (PyState (np_zeros 2 2) 0%nat []) Hb)
          2%nat 2%nat [F64.one; F64.one] [3%nat; 3%nat]
          (PyState (np_zeros 2 2) 0%nat []) _).
  vm_compute. reflexivity.
Defined.

(** ** The last cell *)

Section LastCell.

Context {W : Type} {E : Env W}.
Variables alpha gamma epsilon : float.
Variable num_episodes : nat.
Variable np_mean : list float -> float.

Lemma run_env_returns_qtable fuel (st : pystate W) q st' :
  run_env alpha gamma epsilon num_episodes np_mean fuel st = (Ok q, st') ->
  q = qtable st'.
Proof.
  intros Hrun.
  assert (Htr : triple (fun _ => True)
                  (run_env alpha gamma epsilon num_episodes np_mean fuel)
                  (fun q st => True /\ q = qtable st) (fun _ _ => True)).
  { apply (run_env_triple alpha gamma epsilon num_episodes np_mean
             (fun _ => True) (fun _ => True)); try done.
    apply (episode_triple _ _ (fun _ _ => True)); try done.
    intros l. by apply train_body_triple. }
  specialize (Htr st I). rewrite Hrun in Htr. by destruct Htr.
Qed.

Lemma evaluation_keeps_qtable fuel num_trials :
  reads_only (evaluation (E := E) np_mean fuel num_trials).
Proof.
  unfold evaluation.
  apply keeps_bind; [apply eval_for_reads_only|]. intros res.
  apply keeps_bind; [apply reads_only_print|]. intros ?.
  apply keeps_bind; [apply reads_only_print|]. intros ?.
  apply keeps_bind; [apply keeps_lift|]. intros mx.
  apply keeps_bind; [apply reads_only_print|]. intros ?.
  apply keeps_bind; [apply keeps_lift|]. intros rate.
  apply reads_only_print.
Qed.

End LastCell.

(** X13. The last cell, [qtable = run_env(); evaluation(qtable, 10);
    env.close()]: when it completes, the ten trials were run on the array
    that training returned, which has one row per state and one column per
    action and is still the array of the final state; when training or
    evaluation raises, the cell raises the same exception and
    [env.close()] is not reached. *)
Theorem notebook_main_composes {W : Type} {E : Env W}
    (alpha gamma epsilon : float) (num_episodes : nat)
    (np_mean : list float -> float) (env_close : W -> unit * W) (fuel : nat)
    (st : pystate W) :
  let main := notebook_main alpha gamma epsilon num_episodes np_mean env_close fuel in
  let train := run_env alpha gamma epsilon num_episodes np_mean fuel in
  (forall st', main st = (Ok tt, st') ->
     exists q st1 st2,
       train st = (Ok q, st1) /\
       qtable st1 = q /\
       has_shape observation_space_n action_space_n q /\
       evaluation np_mean fuel 10 st1 = (Ok tt, st2) /\
       st' = PyState q (snd (env_close (world st2))) (stdout st2)) /\
  (forall e st1, train st = (Raise e, st1) -> main st = (Raise e, st1)) /\
  (forall q st1 e st2,
     train st = (Ok q, st1) ->
     evaluation np_mean fuel 10 st1 = (Raise e, st2) ->
     main st = (Raise e, st2)).
Proof.
  cbv zeta. unfold notebook_main. split; [|split].
  - intros st' (q & st1 & Hrun & (u & st2 & Heval & [_ ->]%call_Ok)%bind_Ok)%bind_Ok.
    destruct u.
    pose proof (run_env_returns_qtable _ _ _ _ _ _ _ _ _ Hrun) as Hq.
    pose proof (evaluation_keeps_qtable np_mean fuel 10 st1) as Hkeep.
    rewrite Heval in Hkeep. cbn in Hkeep.
    exists q, st1, st2. split; [done|]. split; [done|]. split.
    + refine (proj2 (run_env_invariant alpha gamma epsilon num_episodes np_mean
                       (has_shape observation_space_n action_space_n) fuel st
                       (np_zeros_shape _ _) _) q _).
      * intros q0 s a a' w q' Hshape Hq0. by eapply q_update_shape.
      * by rewrite Hrun.
    + split; [done|]. by rewrite Hkeep, <- Hq.
  - intros e st1 Hrun. by apply bind_Raise_l.
  - intros q st1 e st2 Hrun Heval.
    rewrite (bind_step _ _ _ _ _ Hrun). by apply bind_Raise_l.
Qed.

(** ** The guard of the exploiting branch, by the first entry of the row *)

(** X14. What the exploiting branch does is decided by the first entry of
    the row: when it is zero the branch samples, whatever the other entries
    are; when it is [1.0] and no entry is zero the branch samples as well;
    in every other case it returns the lowest index of a greatest entry and
    leaves the sampler untouched. *)
Theorem exploit_by_first_entry {W : Type} {E : Env W} (s : Z)
    (st : pystate W) (row : list float) (x0 : float) :
  getrow (qtable st) s = Ok row ->
  row !! 0%nat = Some x0 ->
  ((x0 == F64.zero)%f64 = true ->
     exploit s st = call action_space_sample st) /\
  ((x0 == F64.one)%f64 = true -> np_all row = true ->
     exploit s st = call action_space_sample st) /\
  ((x0 == F64.zero)%f64 = false ->
   (x0 == F64.one)%f64 = false \/ np_all row = false ->
     exists k, exploit s st = (Ok (Z.of_nat k), st) /\ first_maximum row k).
Proof.
  intros Hrow Hx0. split; [|split].
  - intros Hzero. by apply (exploit_first_entry_zero s st row x0).
  - intros Hone Hall. rewrite (exploit_unfold s st row x0) by done.
    replace (guard row x0) with true; [done|].
    symmetry. apply guard_true_iff. by right.
  - intros Hzero Hother. apply (exploit_greedy s st row x0); [done..|].
    destruct (guard row x0) eqn:Hg; [|done].
    apply guard_true_iff in Hg. destruct Hg as [[_ Hg]|[Hall Hg]];
      [congruence|]. destruct Hother; congruence.
Qed.

Lemma exploit_by_first_entry_witness :
  let row := [F64.one; F64.half] in
  let st := PyState [row] (Stub [] [] [1] []) [] in
  np_argmax row = Ok 0 /\
  exploit (E := stub_env 1 2) 0 st = (Ok 1, PyState [row] (Stub [] [] [] []) []).
Proof.
  cbv zeta. split; [reflexivity|].
  rewrite (proj1 (proj2 (exploit_by_first_entry (E := stub_env 1 2) 0
                           (PyState [[F64.one; F64.half]] (Stub [] [] [1] []) [])
                           [F64.one; F64.half] F64.one eq_refl eq_refl))
             eq_refl eq_refl).
  reflexivity.
Defined.
